(** * Weekly meal plan manager: validation, ledger and nutrition totals

    A shallow embedding of [src/components/MealPlanManager.tsx]: the
    [mealFormSchema] validator, the [meals] ledger held in component state,
    the [onSubmit] handler and the [calculateTotals] aggregation, followed
    by the properties the specification states about them.

    Numbers.  A JavaScript [number] is modelled by [number] below: an exact
    rational, one of the two infinities, or NaN.  Arithmetic follows the
    IEEE rules for the special values (0/0 is NaN, x/0 is an infinity,
    Infinity - Infinity is NaN, ...), and is exact on finite values: there
    is no rounding, no overflow and no negative zero.  Every divisor the
    program builds is a sum started from the literal [0], which is never a
    negative zero, so dividing by zero takes its sign from the numerator
    alone, as it does here.  Where a statement depends on results that leave
    the range of doubles, it is made on the arithmetic of [Overflow], which
    turns such results into infinities. *)

From Stdlib Require Import QArith Qcanon Lqa.
From Stdlib Require Import List String Bool Arith Lia.
Import ListNotations.

Local Close Scope Qc_scope.
Local Close Scope Q_scope.
Local Open Scope string_scope.
Local Open Scope list_scope.

(* ================================================================== *)
(** ** JavaScript numbers over exact rationals *)

Module JS.

Inductive number : Type :=
| Num (q : Qc)
| PosInf
| NegInf
| NaN.

(** The rational of an integer literal. *)
Definition rat (z : Z) : Qc := Q2Qc (inject_Z z).

Definition zero : number := Num (Q2Qc 0%Q).
Definition of_Z (z : Z) : number := Num (rat z).

(** Sign of a finite value, as a comparison with zero. *)
Definition sgn (q : Qc) : comparison := Qccompare q (Q2Qc 0%Q).

Definition inf_of_sign (pos : bool) : number := if pos then PosInf else NegInf.

(** [x + y] *)
Definition add (x y : number) : number :=
  match x, y with
  | NaN, _ | _, NaN => NaN
  | Num a, Num b => Num (a + b)%Qc
  | PosInf, NegInf | NegInf, PosInf => NaN
  | PosInf, _ | _, PosInf => PosInf
  | NegInf, _ | _, NegInf => NegInf
  end.

(** An infinity scaled by a finite factor: the sign follows the factor, and
    a zero factor gives NaN. *)
Definition scale_inf (pos : bool) (q : Qc) : number :=
  match sgn q with
  | Gt => inf_of_sign pos
  | Lt => inf_of_sign (negb pos)
  | Eq => NaN
  end.

(** [x * y] *)
Definition mul (x y : number) : number :=
  match x, y with
  | NaN, _ | _, NaN => NaN
  | Num a, Num b => Num (a * b)%Qc
  | PosInf, Num b => scale_inf true b
  | NegInf, Num b => scale_inf false b
  | Num a, PosInf => scale_inf true a
  | Num a, NegInf => scale_inf false a
  | PosInf, PosInf | NegInf, NegInf => PosInf
  | PosInf, NegInf | NegInf, PosInf => NegInf
  end.

(** [x / y].  A finite value over zero is an infinity of the numerator's
    sign, and zero over zero is NaN. *)
Definition div (x y : number) : number :=
  match x, y with
  | NaN, _ | _, NaN => NaN
  | Num a, Num b =>
      match sgn b with
      | Eq => match sgn a with
              | Gt => PosInf
              | Lt => NegInf
              | Eq => NaN
              end
      | _ => Num (a / b)%Qc
      end
  | Num _, (PosInf | NegInf) => zero
  | PosInf, Num b => match sgn b with Lt => NegInf | _ => PosInf end
  | NegInf, Num b => match sgn b with Lt => PosInf | _ => NegInf end
  | (PosInf | NegInf), (PosInf | NegInf) => NaN
  end.

(** The global [isNaN] on a number. *)
Definition isNaN (x : number) : bool :=
  match x with NaN => true | _ => false end.

(** [x < y]; every comparison with NaN is false. *)
Definition lt (x y : number) : bool :=
  match x, y with
  | NaN, _ | _, NaN => false
  | Num a, Num b => match Qccompare a b with Lt => true | _ => false end
  | NegInf, NegInf => false
  | NegInf, _ => true
  | _, NegInf => false
  | PosInf, _ => false
  | Num _, PosInf => true
  end.

(** [x >= y] *)
Definition ge (x y : number) : bool :=
  match x, y with
  | NaN, _ | _, NaN => false
  | Num a, Num b => match Qccompare a b with Lt => false | _ => true end
  | PosInf, _ => true
  | _, NegInf => true
  | NegInf, _ => false
  | Num _, PosInf => false
  end.

End JS.

Declare Scope js_scope.
Delimit Scope js_scope with js.
Bind Scope js_scope with JS.number.
Infix "+" := JS.add : js_scope.
Infix "*" := JS.mul : js_scope.
Infix "/" := JS.div : js_scope.
Notation "x <? y" := (JS.lt x y) : js_scope.
Notation "x >=? y" := (JS.ge x y) : js_scope.

(* ================================================================== *)
(** ** Data model *)

(** The seven literals of [z.enum([...])] and of [DAYS]. *)
Inductive Day : Type :=
| monday | tuesday | wednesday | thursday | friday | saturday | sunday.

Definition DAYS : list Day :=
  [monday; tuesday; wednesday; thursday; friday; saturday; sunday].

Definition Day_eq_dec (a b : Day) : {a = b} + {a <> b}.
Proof. decide equality. Defined.

Definition day_name (d : Day) : string :=
  match d with
  | monday => "monday"
  | tuesday => "tuesday"
  | wednesday => "wednesday"
  | thursday => "thursday"
  | friday => "friday"
  | saturday => "saturday"
  | sunday => "sunday"
  end.

(** [type Meal = z.infer<typeof mealFormSchema>] *)
Record Meal : Type := mkMeal {
  day : Day;
  name : string;
  protein : JS.number;
  carbs : JS.number;
  fat : JS.number
}.

(** What the form hands to the resolver: the select's value, the text
    input's value, and the three [+e.target.value] numbers.  Nothing here is
    checked yet, so the day is any string and a macro is any number.  A
    string is its sequence of code units, one character here for each, so
    that [String.length] is the [length] that [min(2)] compares. *)
Record FormValues : Type := mkFormValues {
  fv_day : string;
  fv_name : string;
  fv_protein : JS.number;
  fv_carbs : JS.number;
  fv_fat : JS.number
}.

(** An object with exactly the seven day keys, [Record<Meal['day'], A>]. *)
Record Weekly (A : Type) : Type := mkWeekly {
  w_monday : A;
  w_tuesday : A;
  w_wednesday : A;
  w_thursday : A;
  w_friday : A;
  w_saturday : A;
  w_sunday : A
}.
Arguments mkWeekly {A}.
Arguments w_monday {A}.
Arguments w_tuesday {A}.
Arguments w_wednesday {A}.
Arguments w_thursday {A}.
Arguments w_friday {A}.
Arguments w_saturday {A}.
Arguments w_sunday {A}.

(** Property read [w[d]]. *)
Definition get {A} (w : Weekly A) (d : Day) : A :=
  match d with
  | monday => w_monday w
  | tuesday => w_tuesday w
  | wednesday => w_wednesday w
  | thursday => w_thursday w
  | friday => w_friday w
  | saturday => w_saturday w
  | sunday => w_sunday w
  end.

(** The object literal [{ ...w, [d]: x }]: a copy of [w] with one key
    replaced. *)
Definition set {A} (w : Weekly A) (d : Day) (x : A) : Weekly A :=
  match d with
  | monday => mkWeekly x (w_tuesday w) (w_wednesday w) (w_thursday w) (w_friday w) (w_saturday w) (w_sunday w)
  | tuesday => mkWeekly (w_monday w) x (w_wednesday w) (w_thursday w) (w_friday w) (w_saturday w) (w_sunday w)
  | wednesday => mkWeekly (w_monday w) (w_tuesday w) x (w_thursday w) (w_friday w) (w_saturday w) (w_sunday w)
  | thursday => mkWeekly (w_monday w) (w_tuesday w) (w_wednesday w) x (w_friday w) (w_saturday w) (w_sunday w)
  | friday => mkWeekly (w_monday w) (w_tuesday w) (w_wednesday w) (w_thursday w) x (w_saturday w) (w_sunday w)
  | saturday => mkWeekly (w_monday w) (w_tuesday w) (w_wednesday w) (w_thursday w) (w_friday w) x (w_sunday w)
  | sunday => mkWeekly (w_monday w) (w_tuesday w) (w_wednesday w) (w_thursday w) (w_friday w) (w_saturday w) x
  end.

Definition weekly_map {A B} (f : A -> B) (w : Weekly A) : Weekly B :=
  mkWeekly (f (w_monday w)) (f (w_tuesday w)) (f (w_wednesday w))
    (f (w_thursday w)) (f (w_friday w)) (f (w_saturday w)) (f (w_sunday w)).

(** [type WeeklyMeals = Record<Meal['day'], Meal[]>]: one array per day.
    The component never changes an array or a state object in place (every
    update builds new ones), so the state is modelled by its value here; the
    arrays as shared objects are modelled in [Refs] below. *)
Definition WeeklyMeals : Type := Weekly (list Meal).

(** [{ protein, carbs, fat }] of [macroPercentages]. *)
Record Percentages : Type := mkPercentages {
  pct_protein : JS.number;
  pct_carbs : JS.number;
  pct_fat : JS.number
}.

(** The four [useState] cells of the component. *)
Record State : Type := mkState {
  meals : WeeklyMeals;
  currentDay : Day;
  currentCalories : JS.number;
  macroPercentages : Percentages
}.

(** The initial values passed to [useState]. *)
Definition initialMeals : WeeklyMeals := mkWeekly [] [] [] [] [] [] [].

Definition initialState : State :=
  mkState initialMeals monday JS.zero (mkPercentages JS.zero JS.zero JS.zero).

(* ================================================================== *)
(** ** The validator [mealFormSchema]

    The schema is built from the combinators of zod 3, whose meaning is
    written out here.  A failed parse carries one issue per failed check,
    each with the path of the field it belongs to; the resolver turns them
    into per-field form errors.  Only the issue codes this schema can raise
    are listed. *)

Inductive ZodIssueCode : Type :=
| invalid_type
| invalid_enum_value
| too_small.

Record ZodIssue : Type := mkIssue {
  code : ZodIssueCode;
  path : string
}.

(** [z.enum([...])]: the value must be one of the seven literals. *)
Definition parse_day (s : string) : option Day :=
  find (fun d => String.eqb s (day_name d)) DAYS.

Definition check_day (s : string) : list ZodIssue :=
  match parse_day s with
  | Some _ => []
  | None => [mkIssue invalid_enum_value "day"]
  end.

(** [z.string().min(2, ...)] on the field [name]. *)
Definition check_name (s : string) : list ZodIssue :=
  if Nat.ltb (String.length s) 2 then [mkIssue too_small "name"] else [].

(** [z.number().min(0)] on the field [field]: NaN is not a number for
    [z.number()], and a number below the minimum is too small. *)
Definition check_macro (field : string) (x : JS.number) : list ZodIssue :=
  if JS.isNaN x then [mkIssue invalid_type field]
  else if (x <? JS.zero)%js then [mkIssue too_small field]
  else [].

(** All issues of the object schema, key by key in the order of its shape. *)
Definition issues (v : FormValues) : list ZodIssue :=
  check_day (fv_day v) ++ check_name (fv_name v)
  ++ check_macro "protein" (fv_protein v)
  ++ check_macro "carbs" (fv_carbs v)
  ++ check_macro "fat" (fv_fat v).

(** [mealFormSchema.safeParse]: the parsed meal, or the issues. *)
Definition safeParse (v : FormValues) : Meal + list ZodIssue :=
  match parse_day (fv_day v), issues v with
  | Some d, [] => inl (mkMeal d (fv_name v) (fv_protein v) (fv_carbs v) (fv_fat v))
  | _, errs => inr errs
  end.

(** The error names of the specification, as the issues that stand for them. *)
Definition InvalidDay : ZodIssue := mkIssue invalid_enum_value "day".
Definition NameTooShort : ZodIssue := mkIssue too_small "name".
Definition NegativeMacro (field : string) : ZodIssue := mkIssue too_small field.

(* ================================================================== *)
(** ** The aggregation [calculateTotals] *)

Definition four : JS.number := JS.of_Z 4.
Definition nine : JS.number := JS.of_Z 9.
Definition hundred : JS.number := JS.of_Z 100.

(** [arr.reduce((sum, meal) => sum + f(meal), 0)] *)
Definition reduce_sum (f : Meal -> JS.number) (arr : list Meal) : JS.number :=
  fold_left (fun sum meal => (sum + f meal)%js) arr JS.zero.

(** [isNaN(x) ? 0 : x] *)
Definition nan_to_zero (x : JS.number) : JS.number :=
  if JS.isNaN x then JS.zero else x.

(** The body of [calculateTotals] once [dayMeals] is read: the value handed
    to [setCurrentCalories] and the object handed to [setMacroPercentages]. *)
Definition summarize (dayMeals : list Meal) : JS.number * Percentages :=
  let totalProtein := reduce_sum protein dayMeals in
  let totalCarbs := reduce_sum carbs dayMeals in
  let totalFat := reduce_sum fat dayMeals in
  let totalCalories := (totalProtein * four + totalCarbs * four + totalFat * nine)%js in
  let proteinPercentage := (totalProtein * four / totalCalories * hundred)%js in
  let carbsPercentage := (totalCarbs * four / totalCalories * hundred)%js in
  let fatPercentage := (totalFat * nine / totalCalories * hundred)%js in
  (totalCalories,
   mkPercentages (nan_to_zero proteinPercentage)
                 (nan_to_zero carbsPercentage)
                 (nan_to_zero fatPercentage)).

(** [calculateTotals(day)]: reads [meals[day]], then sets [currentCalories]
    and [macroPercentages]. *)
Definition calculateTotals (st : State) (d : Day) : State :=
  let dayMeals := get (meals st) d in
  let (totalCalories, percentages) := summarize dayMeals in
  mkState (meals st) (currentDay st) totalCalories percentages.

(** The table body [meals[day].map((meal, index) => <TableRow ...>)]: one row
    of four cells per meal. *)
Definition tableRows (st : State) (d : Day)
  : list (string * JS.number * JS.number * JS.number) :=
  map (fun meal => (name meal, protein meal, carbs meal, fat meal))
      (get (meals st) d).

(* ================================================================== *)
(** ** The ledger operations *)

(** [onSubmit(values)]: the functional update
    [{ ...prevMeals, [values.day]: [...prevMeals[values.day], values] }].
    ([form.reset()] only touches the form's own fields.) *)
Definition onSubmit (st : State) (values : Meal) : State :=
  mkState (set (meals st) (day values) (get (meals st) (day values) ++ [values]))
    (currentDay st) (currentCalories st) (macroPercentages st).

(** [setCurrentDay(value)], the tabs' [onValueChange]. *)
Definition setCurrentDay (st : State) (d : Day) : State :=
  mkState (meals st) d (currentCalories st) (macroPercentages st).

(** The effect [useEffect(() => calculateTotals(currentDay), [meals, currentDay])]. *)
Definition effect (st : State) : State := calculateTotals st (currentDay st).

(** [form.handleSubmit(onSubmit)]: the resolver validates the form values,
    and [onSubmit] is called only when there is no issue. *)
Definition handleSubmit (st : State) (v : FormValues) : State :=
  match safeParse v with
  | inl values => onSubmit st values
  | inr _ => st
  end.

(** What the user can do, and the state once the effect has run. *)
Inductive Event : Type :=
| Submit (v : FormValues)
| SelectDay (d : Day).

Definition step (st : State) (e : Event) : State :=
  match e with
  | Submit v => effect (handleSubmit st v)
  | SelectDay d => effect (setCurrentDay st d)
  end.

Definition run (st : State) (es : list Event) : State := fold_left step es st.

(** The states the component can be in: the mounted initial state, and what
    events lead to. *)
Inductive reachable : State -> Prop :=
| reach_init : reachable (effect initialState)
| reach_step st e : reachable st -> reachable (step st e).

(* ================================================================== *)
(** ** The arrays as shared objects

    In the running program [meals[day]] is a reference to an array object.
    This module keeps the arrays in a heap and the state object as seven
    references into it, so that two holders of one reference see each
    other's writes. *)

Module Refs.

Definition addr : Type := nat.
Definition Heap : Type := list (list Meal).

Definition deref (h : Heap) (a : addr) : list Meal := nth a h [].

Record Store : Type := mkStore {
  heap : Heap;
  refs : Weekly addr;
  s_currentDay : Day;
  s_currentCalories : JS.number;
  s_macroPercentages : Percentages
}.

(** Seven array literals [[]], one per key of the initial object. *)
Definition initialStore : Store :=
  mkStore [[]; []; []; []; []; []; []] (mkWeekly 0 1 2 3 4 5 6)
    monday JS.zero (mkPercentages JS.zero JS.zero JS.zero).

(** The state as a value: every reference followed. *)
Definition value_of (s : Store) : State :=
  mkState (weekly_map (deref (heap s)) (refs s))
    (s_currentDay s) (s_currentCalories s) (s_macroPercentages s).

(** No reference dangles. *)
Definition wf (s : Store) : Prop :=
  forall d, get (refs s) d < List.length (heap s).

(** The expression [meals[day]], as [calculateTotals] and the table body
    evaluate it: the stored reference itself. *)
Definition mealsFor (s : Store) (d : Day) : addr := get (refs s) d.

(** [onSubmit]: the array literal [[...prev[day], values]] is a new object,
    and the object literal a new state object that shares the six other
    arrays with the previous one. *)
Definition onSubmit_store (s : Store) (values : Meal) : Store :=
  let fresh := List.length (heap s) in
  let contents := deref (heap s) (get (refs s) (day values)) ++ [values] in
  mkStore (heap s ++ [contents]) (set (refs s) (day values) fresh)
    (s_currentDay s) (s_currentCalories s) (s_macroPercentages s).

(** [calculateTotals]: [reduce] only reads [dayMeals]. *)
Definition calculateTotals_store (s : Store) (d : Day) : Store :=
  let dayMeals := deref (heap s) (mealsFor s d) in
  let (totalCalories, percentages) := summarize dayMeals in
  mkStore (heap s) (refs s) (s_currentDay s) totalCalories percentages.

(** The table body: [map] only reads the array. *)
Definition tableRows_store (s : Store) (d : Day)
  : list (string * JS.number * JS.number * JS.number) :=
  map (fun meal => (name meal, protein meal, carbs meal, fat meal))
      (deref (heap s) (mealsFor s d)).

(** [arr.push(x)] on the array at [a]: the object is changed in place. *)
Fixpoint array_push (h : Heap) (a : addr) (x : Meal) : Heap :=
  match h, a with
  | [], _ => []
  | l :: h', O => (l ++ [x]) :: h'
  | l :: h', S a' => l :: array_push h' a' x
  end.

(** A holder of the reference [a] calling [push] on it. *)
Definition push_through (s : Store) (a : addr) (x : Meal) : Store :=
  mkStore (array_push (heap s) a x) (refs s)
    (s_currentDay s) (s_currentCalories s) (s_macroPercentages s).

(** [setCurrentDay], the effect, [handleSubmit] and the events, on stores. *)
Definition setCurrentDay_store (s : Store) (d : Day) : Store :=
  mkStore (heap s) (refs s) d (s_currentCalories s) (s_macroPercentages s).

Definition effect_store (s : Store) : Store :=
  calculateTotals_store s (s_currentDay s).

Definition handleSubmit_store (s : Store) (v : FormValues) : Store :=
  match safeParse v with
  | inl values => onSubmit_store s values
  | inr _ => s
  end.

Definition step_store (s : Store) (e : Event) : Store :=
  match e with
  | Submit v => effect_store (handleSubmit_store s v)
  | SelectDay d => effect_store (setCurrentDay_store s d)
  end.

Definition run_store (s : Store) (es : list Event) : Store :=
  fold_left step_store es s.

(** No two days hold the same array. *)
Definition separate (s : Store) : Prop :=
  forall d d', get (refs s) d = get (refs s) d' -> d = d'.

(** A state object read in a given heap: what a holder of an earlier state
    object sees once the heap has moved on. *)
Definition read_in (h : Heap) (w : Weekly addr) : WeeklyMeals :=
  weekly_map (deref h) w.

End Refs.

(* ================================================================== *)
(** ** The specification's own wording of the sums *)

(** "Sum protein, carbs, fat across all records (0 if the sequence is
    empty)", by recursion on the sequence. *)
Fixpoint spec_sum (f : Meal -> JS.number) (ms : list Meal) : JS.number :=
  match ms with
  | [] => JS.zero
  | m :: ms' => (f m + spec_sum f ms')%js
  end.

(** A record's macros are all zero. *)
Definition zero_macros (m : Meal) : Prop :=
  protein m = JS.zero /\ carbs m = JS.zero /\ fat m = JS.zero.

(** The validation rules on a stored record: the name has at least two
    characters and no macro is below zero.  (Its day is one of the seven by
    its type.) *)
Definition valid_meal (m : Meal) : Prop :=
  2 <= String.length (name m)
  /\ (protein m >=? JS.zero)%js = true
  /\ (carbs m >=? JS.zero)%js = true
  /\ (fat m >=? JS.zero)%js = true.

(** The same rules on form values, before parsing. *)
Definition valid_values (v : FormValues) : Prop :=
  In (fv_day v) (map day_name DAYS)
  /\ 2 <= String.length (fv_name v)
  /\ (fv_protein v >=? JS.zero)%js = true
  /\ (fv_carbs v >=? JS.zero)%js = true
  /\ (fv_fat v >=? JS.zero)%js = true.

(** The meals a run of events submits successfully, in order. *)
Definition accepted (es : list Event) : list Meal :=
  flat_map (fun e =>
              match e with
              | Submit v => match safeParse v with
                            | inl values => [values]
                            | inr _ => []
                            end
              | SelectDay _ => []
              end) es.

(** The records of a given day among a list of records. *)
Definition of_day (d : Day) (ms : list Meal) : list Meal :=
  filter (fun m => if Day_eq_dec (day m) d then true else false) ms.

(* ================================================================== *)
(** ** The form and the rest of the rendering *)

(** A stored meal, as the form values it was parsed from. *)
Definition to_values (m : Meal) : FormValues :=
  mkFormValues (day_name (day m)) (name m) (protein m) (carbs m) (fat m).

(** [defaultValues] of [useForm]. *)
Definition defaultValues : FormValues :=
  mkFormValues "monday" "" JS.zero JS.zero JS.zero.

(** The component with its form: the four state cells and the current
    values of the five fields. *)
Record UI : Type := mkUI {
  ui_state : State;
  ui_form : FormValues
}.

Definition initialUI : UI := mkUI (effect initialState) defaultValues.

(** What the user can do on the page.  A change of a number input arrives
    as the number [+e.target.value]. *)
Inductive UIEvent : Type :=
| ChangeDay (s : string)
| ChangeName (s : string)
| ChangeProtein (x : JS.number)
| ChangeCarbs (x : JS.number)
| ChangeFat (x : JS.number)
| ClickAddMeal
| ClickTab (d : Day).

(** [field.onChange] of each field; [form.handleSubmit(onSubmit)] on the
    button, where an accepted [onSubmit] sets the meals and then calls
    [form.reset()], which puts the default values back; the tabs'
    [onValueChange].  The effect runs when [meals] or [currentDay] was set. *)
Definition ui_step (u : UI) (e : UIEvent) : UI :=
  let f := ui_form u in
  match e with
  | ChangeDay s =>
      mkUI (ui_state u) (mkFormValues s (fv_name f) (fv_protein f) (fv_carbs f) (fv_fat f))
  | ChangeName s =>
      mkUI (ui_state u) (mkFormValues (fv_day f) s (fv_protein f) (fv_carbs f) (fv_fat f))
  | ChangeProtein x =>
      mkUI (ui_state u) (mkFormValues (fv_day f) (fv_name f) x (fv_carbs f) (fv_fat f))
  | ChangeCarbs x =>
      mkUI (ui_state u) (mkFormValues (fv_day f) (fv_name f) (fv_protein f) x (fv_fat f))
  | ChangeFat x =>
      mkUI (ui_state u) (mkFormValues (fv_day f) (fv_name f) (fv_protein f) (fv_carbs f) x)
  | ClickAddMeal =>
      match safeParse f with
      | inl values => mkUI (effect (onSubmit (ui_state u) values)) defaultValues
      | inr _ => u
      end
  | ClickTab d => mkUI (effect (setCurrentDay (ui_state u) d)) f
  end.

Definition ui_run (u : UI) (es : list UIEvent) : UI := fold_left ui_step es u.

(** Whether a run of page events ever changes the name field. *)
Definition types_name (e : UIEvent) : bool :=
  match e with ChangeName _ => true | _ => false end.

(** [toUpperCase] on one code unit; the tab and option labels only ever
    apply it to the first letter of a day name, an ASCII letter, and on ASCII
    it maps a..z to A..Z and nothing else. *)
Definition toUpperCase_unit (c : Ascii.ascii) : Ascii.ascii :=
  let n := Ascii.nat_of_ascii c in
  if andb (Nat.leb 97 n) (Nat.leb n 122) then Ascii.ascii_of_nat (n - 32) else c.

Fixpoint toUpperCase (s : string) : string :=
  match s with
  | EmptyString => EmptyString
  | String c s' => String (toUpperCase_unit c) (toUpperCase s')
  end.

(** [s.charAt(0)]: the first code unit as a string, or the empty string. *)
Definition charAt0 (s : string) : string :=
  match s with
  | EmptyString => EmptyString
  | String c _ => String c EmptyString
  end.

(** [s.slice(1)] *)
Definition slice1 (s : string) : string :=
  match s with
  | EmptyString => EmptyString
  | String _ s' => s'
  end.

(** [day.charAt(0).toUpperCase() + day.slice(1)], the label of a tab, of an
    option and of a card title. *)
Definition label (day : string) : string :=
  toUpperCase (charAt0 day) ++ slice1 day.

(** The first code unit is one of a..z. *)
Definition starts_lower (s : string) : Prop :=
  match s with
  | EmptyString => False
  | String c _ => 97 <= Ascii.nat_of_ascii c <= 122
  end.

(** A finite number between 0 and 100, what a progress bar can show. *)
Definition percent_in_range (x : JS.number) : bool :=
  andb (x >=? JS.zero)%js (hundred >=? x)%js.

(* ================================================================== *)
(** ** The range of doubles

    The arithmetic of [JS] never leaves the rationals.  A double does: an
    exact result at or beyond 2^1024 - 2^970 in magnitude is rounded to an
    infinity.  [Overflow] adds that to each operation; inside the range the
    result is still the exact one, without rounding. *)

Module Overflow.

Definition threshold : Qc := JS.rat (2 ^ 1024 - 2 ^ 970).

(** The result of an operation, brought into the range of doubles. *)
Definition fit (x : JS.number) : JS.number :=
  match x with
  | JS.Num q =>
      match Qccompare q threshold with
      | Lt => match Qccompare (- threshold)%Qc q with
              | Lt => JS.Num q
              | _ => JS.NegInf
              end
      | _ => JS.PosInf
      end
  | _ => x
  end.

Definition add (x y : JS.number) : JS.number := fit (JS.add x y).
Definition mul (x y : JS.number) : JS.number := fit (JS.mul x y).
Definition div (x y : JS.number) : JS.number := fit (JS.div x y).

End Overflow.

(** [reduce], the body of [calculateTotals] and [calculateTotals] itself,
    with every operation brought into the range of doubles. *)
Definition reduce_sum_double (f : Meal -> JS.number) (arr : list Meal) : JS.number :=
  fold_left (fun sum meal => Overflow.add sum (f meal)) arr JS.zero.

Definition summarize_double (dayMeals : list Meal) : JS.number * Percentages :=
  let totalProtein := reduce_sum_double protein dayMeals in
  let totalCarbs := reduce_sum_double carbs dayMeals in
  let totalFat := reduce_sum_double fat dayMeals in
  let totalCalories :=
    Overflow.add (Overflow.add (Overflow.mul totalProtein four)
                               (Overflow.mul totalCarbs four))
                 (Overflow.mul totalFat nine) in
  let proteinPercentage :=
    Overflow.mul (Overflow.div (Overflow.mul totalProtein four) totalCalories) hundred in
  let carbsPercentage :=
    Overflow.mul (Overflow.div (Overflow.mul totalCarbs four) totalCalories) hundred in
  let fatPercentage :=
    Overflow.mul (Overflow.div (Overflow.mul totalFat nine) totalCalories) hundred in
  (totalCalories,
   mkPercentages (nan_to_zero proteinPercentage)
                 (nan_to_zero carbsPercentage)
                 (nan_to_zero fatPercentage)).


(* ================================================================== *)
(** ** The render cycle

    An event handler commits a render first; the effect runs after the
    commit, and only when one of its dependencies [meals, currentDay]
    changed.  Between the two the summary on the page can be out of date. *)

Definition day_eqb (a b : Day) : bool :=
  if Day_eq_dec a b then true else false.

(** The handler alone: the state it commits, and whether a dependency of
    the effect changed.  [setMeals] always installs a new object;
    [setCurrentDay] with the day that is already selected changes nothing;
    a rejected submission calls no setter. *)
Definition handler (st : State) (e : Event) : State * bool :=
  match e with
  | Submit v =>
      match safeParse v with
      | inl values => (onSubmit st values, true)
      | inr _ => (st, false)
      end
  | SelectDay d => (setCurrentDay st d, negb (day_eqb d (currentDay st)))
  end.

(** After the commit: the effect, if a dependency changed. *)
Definition flush (r : State * bool) : State :=
  if snd r then effect (fst r) else fst r.

Definition step_render (st : State) (e : Event) : State := flush (handler st e).

(** The states in which the page rests: after the mount, whose effect
    always runs, and after each event once its effect, if any, has run. *)
Inductive at_rest : State -> Prop :=
| rest_mount : at_rest (effect initialState)
| rest_event st e : at_rest st -> at_rest (step_render st e).

(* ================================================================== *)
(** ** Submissions that have not settled

    [form.handleSubmit] is asynchronous: a click validates the values the
    form holds at that moment, and [onSubmit] is called only later, when
    the validation has settled.  A second click can come in between. *)

Record UIAsync : Type := mkUIAsync {
  a_ui : UI;
  a_pending : list (Meal + list ZodIssue)
}.

Inductive AsyncEvent : Type :=
| Dispatch (e : UIEvent)
| Settle.

(** A click only queues the outcome of its validation; the other page
    events act at once; settling takes the oldest outcome and, if it is a
    meal, stores it and resets the form. *)
Definition async_step (a : UIAsync) (e : AsyncEvent) : UIAsync :=
  match e with
  | Dispatch ClickAddMeal =>
      mkUIAsync (a_ui a) (a_pending a ++ [safeParse (ui_form (a_ui a))])
  | Dispatch e' => mkUIAsync (ui_step (a_ui a) e') (a_pending a)
  | Settle =>
      match a_pending a with
      | [] => a
      | inl values :: rest =>
          mkUIAsync (mkUI (effect (onSubmit (ui_state (a_ui a)) values)) defaultValues) rest
      | inr _ :: rest => mkUIAsync (a_ui a) rest
      end
  end.

Definition async_run (a : UIAsync) (es : list AsyncEvent) : UIAsync :=
  fold_left async_step es a.

(** Nothing pending. *)
Definition idle (u : UI) : UIAsync := mkUIAsync u [].

(* ================================================================== *)
(** ** Arithmetic of [JS.number] *)

Module JSFacts.
Import JS.


Lemma Num_inj (a b : Qc) : Num a = Num b -> a = b.
Proof.
  intros H. exact (f_equal (fun x => match x with Num q => q | _ => a end) H).
Qed.

Lemma add_comm (x y : number) : (x + y)%js = (y + x)%js.
Proof.
  destruct x, y; simpl; try reflexivity.
  f_equal. apply Qcplus_comm.
Qed.

Lemma add_assoc (x y z : number) : (x + (y + z))%js = (x + y + z)%js.
Proof.
  destruct x, y, z; simpl; try reflexivity.
  f_equal. apply Qcplus_assoc.
Qed.

Lemma add_zero_l (x : number) : (zero + x)%js = x.
Proof.
  destruct x; simpl; try reflexivity.
  f_equal. apply Qcplus_0_l.
Qed.

Lemma add_zero_r (x : number) : (x + zero)%js = x.
Proof. rewrite add_comm. apply add_zero_l. Qed.

Lemma sgn_zero : sgn (Q2Qc 0%Q) = Eq.
Proof. reflexivity. Qed.

Lemma sgn_pos (q : Qc) : (Q2Qc 0%Q < q)%Qc -> sgn q = Gt.
Proof. intros H. unfold sgn. now apply Qcgt_alt. Qed.

Lemma sgn_Eq (q : Qc) : sgn q = Eq -> q = Q2Qc 0%Q.
Proof. unfold sgn. intros H. now apply Qceq_alt. Qed.

Lemma ge_zero_Num (q : Qc) : (Num q >=? zero)%js = true <-> (Q2Qc 0%Q <= q)%Qc.
Proof.
  unfold ge, zero. split.
  - intros H. apply Qcge_alt. intros C. now rewrite C in H.
  - intros H. apply Qcge_alt in H.
    destruct (Qccompare q (Q2Qc 0%Q)); congruence.
Qed.

Lemma lt_zero_Num (q : Qc) : (Num q <? zero)%js = true <-> (q < Q2Qc 0%Q)%Qc.
Proof.
  unfold lt, zero. rewrite Qclt_alt.
  destruct (Qccompare q (Q2Qc 0%Q)); split; congruence.
Qed.

(** [x >= 0] and [x < 0] exclude each other, and NaN satisfies neither. *)
Lemma ge_zero_not_lt (x : number) : (x >=? zero)%js = true -> (x <? zero)%js = false.
Proof.
  destruct x; simpl; try congruence.
  destruct (Qccompare q (Q2Qc 0%Q)); congruence.
Qed.

Lemma ge_zero_not_nan (x : number) : (x >=? zero)%js = true -> isNaN x = false.
Proof. destruct x; simpl; congruence. Qed.

Lemma Qc_add_nonneg (a b : Qc) :
  (0 <= a)%Qc -> (0 <= b)%Qc -> (0 <= a + b)%Qc.
Proof.
  intros Ha Hb. rewrite <- (Qcplus_0_l 0%Qc). now apply Qcplus_le_compat.
Qed.

Lemma Qc_add_eq_zero (a b : Qc) :
  (0 <= a)%Qc -> (0 <= b)%Qc -> (a + b)%Qc = 0%Qc -> a = 0%Qc /\ b = 0%Qc.
Proof.
  unfold Qcle. cbn [this Q2Qc]. intros Ha Hb H.
  apply (f_equal this) in H. cbn [this Q2Qc Qcplus] in H.
  assert (E : (a + b == 0)%Q).
  { rewrite <- (Qred_correct (a + b)), H. apply Qred_correct. }
  rewrite Qred_correct in Ha, Hb.
  split; apply Qc_is_canon; cbn [this Q2Qc]; rewrite Qred_correct; lra.
Qed.

Lemma Qc_mul_nonneg (a k : Qc) :
  (0 <= a)%Qc -> (0 <= k)%Qc -> (0 <= a * k)%Qc.
Proof.
  intros Ha Hk. rewrite <- (Qcmult_0_l k). now apply Qcmult_le_compat_r.
Qed.

Lemma ge_zero_inv (x : number) :
  (x >=? zero)%js = true -> x = PosInf \/ exists a, x = Num a /\ (0 <= a)%Qc.
Proof.
  destruct x; try discriminate; [|now left].
  intros H. right. exists q. split; [reflexivity | now apply ge_zero_Num].
Qed.

Lemma ge_zero_add (x y : number) :
  (x >=? zero)%js = true -> (y >=? zero)%js = true -> (x + y >=? zero)%js = true.
Proof.
  intros Hx Hy.
  destruct (ge_zero_inv x Hx) as [->|(a & -> & Ha)];
    destruct (ge_zero_inv y Hy) as [->|(b & -> & Hb)]; try reflexivity.
  cbn [add]. apply ge_zero_Num. now apply Qc_add_nonneg.
Qed.

Lemma add_eq_zero (x y : number) :
  (x >=? zero)%js = true -> (y >=? zero)%js = true ->
  (x + y)%js = zero -> x = zero /\ y = zero.
Proof.
  intros Hx Hy.
  destruct (ge_zero_inv x Hx) as [->|(a & -> & Ha)];
    destruct (ge_zero_inv y Hy) as [->|(b & -> & Hb)]; try discriminate.
  cbn [add]. unfold zero. intros E. apply Num_inj in E.
  destruct (Qc_add_eq_zero a b Ha Hb E) as [-> ->]. now split.
Qed.

(** Scaling by a positive constant, as [* 4] and [* 9] do. *)
Lemma ge_zero_mul_pos (x : number) (k : Qc) :
  (0 < k)%Qc -> (x >=? zero)%js = true -> (x * Num k >=? zero)%js = true.
Proof.
  intros Hk Hx.
  destruct (ge_zero_inv x Hx) as [->|(a & -> & Ha)].
  - cbn [mul]. unfold scale_inf. now rewrite (sgn_pos k Hk).
  - cbn [mul]. apply ge_zero_Num. apply Qc_mul_nonneg; [exact Ha|].
    now apply Qclt_le_weak.
Qed.

Lemma mul_pos_eq_zero (x : number) (k : Qc) :
  (0 < k)%Qc -> (x >=? zero)%js = true -> (x * Num k)%js = zero -> x = zero.
Proof.
  intros Hk Hx.
  destruct (ge_zero_inv x Hx) as [->|(a & -> & Ha)].
  - cbn [mul]. unfold scale_inf. rewrite (sgn_pos k Hk). discriminate.
  - cbn [mul]. unfold zero. intros E. apply Num_inj in E. f_equal.
    destruct (Qcmult_integral _ _ E) as [-> | ->]; [reflexivity|].
    now apply Qclt_not_eq in Hk.
Qed.

End JSFacts.

(* ================================================================== *)
(** ** The aggregation *)

Section Aggregation.
Import JS JSFacts.

Lemma fold_sum_acc (f : Meal -> number) (ms : list Meal) (acc : number) :
  fold_left (fun sum meal => (sum + f meal)%js) ms acc = (acc + spec_sum f ms)%js.
Proof.
  revert acc. induction ms as [|m ms IH]; intros acc; simpl.
  - now rewrite add_zero_r.
  - rewrite IH. now rewrite add_assoc.
Qed.

(** [reduce] from [0] computes the sum the specification describes. *)
Lemma reduce_sum_spec (f : Meal -> number) (ms : list Meal) :
  reduce_sum f ms = spec_sum f ms.
Proof. unfold reduce_sum. rewrite fold_sum_acc. apply add_zero_l. Qed.

Lemma calculateTotals_summarize (st : State) (d : Day) :
  calculateTotals st d =
  mkState (meals st) (currentDay st)
    (fst (summarize (get (meals st) d))) (snd (summarize (get (meals st) d))).
Proof.
  unfold calculateTotals. now destruct (summarize (get (meals st) d)).
Qed.

Lemma spec_sum_all_zero (f : Meal -> number) (ms : list Meal) :
  Forall (fun m => f m = zero) ms -> spec_sum f ms = zero.
Proof.
  induction 1 as [|m ms Hm _ IH]; simpl.
  - reflexivity.
  - rewrite Hm, IH. apply add_zero_l.
Qed.

Lemma div_Num (a b : Qc) : b <> Q2Qc 0%Q -> (Num a / Num b)%js = Num (a / b)%Qc.
Proof.
  intros Hb. simpl. destruct (sgn b) eqn:E; try reflexivity.
  now apply sgn_Eq in E.
Qed.

(** With finite totals and a non-zero calorie total, no special value
    appears and the guard [isNaN] lets every percentage through. *)
Lemma summarize_finite (ms : list Meal) (p c f : Qc) :
  reduce_sum protein ms = Num p ->
  reduce_sum carbs ms = Num c ->
  reduce_sum fat ms = Num f ->
  (p * rat 4 + c * rat 4 + f * rat 9)%Qc <> Q2Qc 0%Q ->
  summarize ms =
  (Num (p * rat 4 + c * rat 4 + f * rat 9)%Qc,
   mkPercentages
     (Num (p * rat 4 / (p * rat 4 + c * rat 4 + f * rat 9) * rat 100)%Qc)
     (Num (c * rat 4 / (p * rat 4 + c * rat 4 + f * rat 9) * rat 100)%Qc)
     (Num (f * rat 9 / (p * rat 4 + c * rat 4 + f * rat 9) * rat 100)%Qc)).
Proof.
  intros Hp Hc Hf HT. unfold summarize. rewrite Hp, Hc, Hf.
  unfold four, nine, hundred, of_Z.
  cbn [mul add]. rewrite !div_Num by exact HT.
  reflexivity.
Qed.

End Aggregation.

Section AggregationClaims.
Import JS JSFacts.

Lemma reduce_sum_all_zero (f : Meal -> number) (ms : list Meal) :
  Forall (fun m => f m = zero) ms -> reduce_sum f ms = zero.
Proof. rewrite reduce_sum_spec. apply spec_sum_all_zero. Qed.

Lemma summarize_all_zero (ms : list Meal) :
  Forall zero_macros ms ->
  summarize ms = (zero, mkPercentages zero zero zero).
Proof.
  intros H. unfold summarize.
  rewrite !reduce_sum_all_zero.
  - reflexivity.
  - eapply Forall_impl; [|exact H]. unfold zero_macros. tauto.
  - eapply Forall_impl; [|exact H]. unfold zero_macros. tauto.
  - eapply Forall_impl; [|exact H]. unfold zero_macros. tauto.
Qed.

(** *** When is the calorie total zero? *)

Lemma spec_sum_ge_zero (f : Meal -> number) (ms : list Meal) :
  Forall (fun m => (f m >=? zero)%js = true) ms ->
  (spec_sum f ms >=? zero)%js = true.
Proof.
  induction 1 as [|m ms Hm _ IH]; cbn [spec_sum].
  - reflexivity.
  - now apply ge_zero_add.
Qed.

Lemma spec_sum_zero_inv (f : Meal -> number) (ms : list Meal) :
  Forall (fun m => (f m >=? zero)%js = true) ms ->
  spec_sum f ms = zero ->
  Forall (fun m => f m = zero) ms.
Proof.
  induction 1 as [|m ms Hm Hms IH]; cbn [spec_sum]; intros E.
  - constructor.
  - apply add_eq_zero in E as [E1 E2];
      [|exact Hm | now apply spec_sum_ge_zero].
    constructor; [exact E1 | now apply IH].
Qed.

Lemma rat_pos_4 : (0 < rat 4)%Qc.
Proof. unfold Qclt. vm_compute. reflexivity. Qed.

Lemma rat_pos_9 : (0 < rat 9)%Qc.
Proof. unfold Qclt. vm_compute. reflexivity. Qed.

(** On records that passed validation, the calories are 0 only when every
    macro of every record is 0: the case the [isNaN] guard covers. *)
Lemma valid_zero_calories_all_zero (ms : list Meal) :
  Forall valid_meal ms ->
  fst (summarize ms) = zero ->
  Forall zero_macros ms.
Proof.
  intros V. unfold summarize. cbn [fst]. rewrite !reduce_sum_spec.
  assert (Vp : Forall (fun m => (protein m >=? zero)%js = true) ms).
  { eapply Forall_impl; [|exact V]. unfold valid_meal. tauto. }
  assert (Vc : Forall (fun m => (carbs m >=? zero)%js = true) ms).
  { eapply Forall_impl; [|exact V]. unfold valid_meal. tauto. }
  assert (Vf : Forall (fun m => (fat m >=? zero)%js = true) ms).
  { eapply Forall_impl; [|exact V]. unfold valid_meal. tauto. }
  pose proof (spec_sum_ge_zero _ _ Vp) as Gp.
  pose proof (spec_sum_ge_zero _ _ Vc) as Gc.
  pose proof (spec_sum_ge_zero _ _ Vf) as Gf.
  unfold four, nine, of_Z. intros E.
  apply add_eq_zero in E as [E Ef];
    [| apply ge_zero_add; now apply ge_zero_mul_pos; auto using rat_pos_4
     | now apply ge_zero_mul_pos; auto using rat_pos_9 ].
  apply add_eq_zero in E as [Ep Ec];
    [| now apply ge_zero_mul_pos; auto using rat_pos_4
     | now apply ge_zero_mul_pos; auto using rat_pos_4 ].
  apply mul_pos_eq_zero in Ep; [|apply rat_pos_4|exact Gp].
  apply mul_pos_eq_zero in Ec; [|apply rat_pos_4|exact Gc].
  apply mul_pos_eq_zero in Ef; [|apply rat_pos_9|exact Gf].
  pose proof (spec_sum_zero_inv _ _ Vp Ep) as Zp.
  pose proof (spec_sum_zero_inv _ _ Vc Ec) as Zc.
  pose proof (spec_sum_zero_inv _ _ Vf Ef) as Zf.
  rewrite Forall_forall in *. intros m Hm. unfold zero_macros. auto.
Qed.

(** On records that did not pass validation the guard is not a zero-total
    guard: 9 g of protein and -4 g of fat give 36 - 36 = 0 calories, and
    36/0 is Infinity, which [isNaN] lets through. *)
Example unvalidated_zero_total :
  summarize [mkMeal monday "Shake" (of_Z 9) zero (of_Z (-4))]
  = (zero, mkPercentages PosInf zero NegInf).
Proof. reflexivity. Qed.

(** C1.  When the calories of the day's list are 0 (the list is empty,
    or every record in it has protein, carbs and fat equal to 0; on records
    that passed validation there is no other way), [calculateTotals] sets
    the calories to 0 and each of the three percentages to exactly 0, not
    NaN: the 0/0 of each division is NaN and the [isNaN] guard replaces it
    by 0. *)
Theorem zero_total_gives_zero_percentages (st : State) (d : Day) :
  Forall zero_macros (get (meals st) d)
  \/ (Forall valid_meal (get (meals st) d)
      /\ currentCalories (calculateTotals st d) = zero) ->
  currentCalories (calculateTotals st d) = zero
  /\ macroPercentages (calculateTotals st d) = mkPercentages zero zero zero
  /\ isNaN (pct_protein (macroPercentages (calculateTotals st d))) = false
  /\ isNaN (pct_carbs (macroPercentages (calculateTotals st d))) = false
  /\ isNaN (pct_fat (macroPercentages (calculateTotals st d))) = false.
Proof.
  intros H.
  assert (Z : Forall zero_macros (get (meals st) d)).
  { destruct H as [H|[V E]]; [exact H|].
    apply valid_zero_calories_all_zero; [exact V|].
    now rewrite calculateTotals_summarize in E. }
  rewrite calculateTotals_summarize.
  rewrite (summarize_all_zero _ Z). simpl. repeat split; reflexivity.
Qed.

Lemma zero_total_gives_zero_percentages_witness :
  let st := onSubmit initialState (mkMeal monday "Water" zero zero zero) in
  Forall zero_macros (get (meals st) monday)
  /\ currentCalories (calculateTotals st monday) = zero
  /\ macroPercentages (calculateTotals st monday) = mkPercentages zero zero zero.
Proof.
  intros st.
  assert (H : Forall zero_macros (get (meals st) monday)).
  { repeat constructor. }
  split; [exact H|].
  destruct (zero_total_gives_zero_percentages st monday (or_introl H))
    as (Hc & Hp & _).
  split; assumption.
Defined.


Lemma single_meal_scenario (dd : Day) (n : string) :
  summarize [mkMeal dd n (of_Z 50) (of_Z 50) (of_Z 20)] =
  (of_Z 580,
   mkPercentages (of_Z 200 / of_Z 580 * hundred)%js
                 (of_Z 200 / of_Z 580 * hundred)%js
                 (of_Z 180 / of_Z 580 * hundred)%js).
Proof.
  rewrite (summarize_finite _ (0 + rat 50)%Qc
             (0 + rat 50)%Qc (0 + rat 20)%Qc);
    try reflexivity.
  intros E. apply (f_equal this) in E. vm_compute in E. discriminate.
Qed.

(** C3.  The calories [calculateTotals] sets are
    (sum of protein)*4 + (sum of carbs)*4 + (sum of fat)*9, each sum being
    the specification's sum over the day's records and 0 on the empty
    list; and a single meal with protein 50, carbs 50 and fat 20 gives 580
    calories with percentages 200/580*100, 200/580*100 and 180/580*100. *)
Theorem calories_formula :
  (forall st d,
      let ms := get (meals st) d in
      currentCalories (calculateTotals st d) =
      (spec_sum protein ms * four + spec_sum carbs ms * four
       + spec_sum fat ms * nine)%js)
  /\ (forall f, reduce_sum f [] = zero)
  /\ (forall st d dd n,
         get (meals st) d = [mkMeal dd n (of_Z 50) (of_Z 50) (of_Z 20)] ->
         currentCalories (calculateTotals st d) = of_Z 580
         /\ macroPercentages (calculateTotals st d) =
            mkPercentages (of_Z 200 / of_Z 580 * hundred)%js
                          (of_Z 200 / of_Z 580 * hundred)%js
                          (of_Z 180 / of_Z 580 * hundred)%js).
Proof.
  split; [|split].
  - intros st d ms. rewrite calculateTotals_summarize. subst ms.
    unfold summarize. cbn [fst]. now rewrite !reduce_sum_spec.
  - reflexivity.
  - intros st d dd n H. rewrite calculateTotals_summarize, H.
    rewrite single_meal_scenario. split; reflexivity.
Qed.

Lemma calories_formula_witness :
  let st := onSubmit initialState
              (mkMeal friday "Dinner" (of_Z 50) (of_Z 50) (of_Z 20)) in
  currentCalories (calculateTotals st friday) = of_Z 580
  /\ pct_fat (macroPercentages (calculateTotals st friday)) =
     (of_Z 180 / of_Z 580 * hundred)%js.
Proof.
  intros st.
  destruct calories_formula as (_ & _ & H).
  destruct (H st friday friday "Dinner" eq_refl) as (Hc & Hp).
  split; [exact Hc|]. now rewrite Hp.
Defined.

End AggregationClaims.

(* ================================================================== *)
(** ** The ledger *)

Section Ledger.

Lemma get_set_same {A} (w : Weekly A) (d : Day) (x : A) : get (set w d x) d = x.
Proof. now destruct d. Qed.

Lemma get_set_other {A} (w : Weekly A) (d d' : Day) (x : A) :
  d' <> d -> get (set w d x) d' = get w d'.
Proof. destruct d, d'; simpl; congruence. Qed.

Lemma meals_calculateTotals (st : State) (d : Day) :
  meals (calculateTotals st d) = meals st.
Proof. now rewrite calculateTotals_summarize. Qed.

Lemma meals_effect (st : State) : meals (effect st) = meals st.
Proof. apply meals_calculateTotals. Qed.

Lemma meals_onSubmit_same (st : State) (r : Meal) :
  get (meals (onSubmit st r)) (day r) = get (meals st) (day r) ++ [r].
Proof. unfold onSubmit. cbn [meals]. apply get_set_same. Qed.

Lemma meals_onSubmit_other (st : State) (r : Meal) (d : Day) :
  d <> day r -> get (meals (onSubmit st r)) d = get (meals st) d.
Proof. intros H. unfold onSubmit. cbn [meals]. now apply get_set_other. Qed.

(** One submission, seen from day [d]. *)
Lemma meals_onSubmit_of_day (st : State) (r : Meal) (d : Day) :
  get (meals (onSubmit st r)) d = get (meals st) d ++ of_day d [r].
Proof.
  unfold of_day. cbn [filter].
  destruct (Day_eq_dec (day r) d) as [E|N].
  - subst d. apply meals_onSubmit_same.
  - rewrite app_nil_r. apply meals_onSubmit_other. congruence.
Qed.

Lemma of_day_app (d : Day) (l1 l2 : list Meal) :
  of_day d (l1 ++ l2) = of_day d l1 ++ of_day d l2.
Proof. apply filter_app. Qed.

Lemma of_day_all (d : Day) (rs : list Meal) :
  Forall (fun r => day r = d) rs -> of_day d rs = rs.
Proof.
  induction 1 as [|r rs Hr _ IH]; [reflexivity|].
  unfold of_day in *. cbn [filter].
  destruct (Day_eq_dec (day r) d); [now rewrite IH | contradiction].
Qed.

(** Direct calls of [onSubmit] append, day by day. *)
Lemma fold_onSubmit_meals (rs : list Meal) (st : State) (d : Day) :
  get (meals (fold_left onSubmit rs st)) d = get (meals st) d ++ of_day d rs.
Proof.
  revert st. induction rs as [|r rs IH]; intros st; cbn [fold_left].
  - unfold of_day. cbn. now rewrite app_nil_r.
  - rewrite IH, meals_onSubmit_of_day, <- app_assoc.
    f_equal. change (r :: rs) with ([r] ++ rs). now rewrite of_day_app.
Qed.

Lemma meals_step (st : State) (e : Event) (d : Day) :
  get (meals (step st e)) d = get (meals st) d ++ of_day d (accepted [e]).
Proof.
  destruct e as [v|d']; unfold step; rewrite meals_effect.
  - unfold handleSubmit, accepted. cbn [flat_map].
    destruct (safeParse v) as [values|errs].
    + rewrite app_nil_r. apply meals_onSubmit_of_day.
    + cbn. now rewrite app_nil_r.
  - cbn. now rewrite app_nil_r.
Qed.

Lemma accepted_app (es1 es2 : list Event) :
  accepted (es1 ++ es2) = accepted es1 ++ accepted es2.
Proof. apply flat_map_app. Qed.

(** Whatever the user does, a day's list is the successful submissions for
    that day, in order. *)
Lemma meals_run (es : list Event) (st : State) (d : Day) :
  get (meals (run st es)) d = get (meals st) d ++ of_day d (accepted es).
Proof.
  revert st. induction es as [|e es IH]; intros st; unfold run; cbn [fold_left].
  - cbn. now rewrite app_nil_r.
  - fold (run (step st e) es). rewrite IH, meals_step, <- app_assoc.
    f_equal. change (e :: es) with ([e] ++ es).
    now rewrite accepted_app, of_day_app.
Qed.

Lemma run_snoc (st : State) (es : list Event) (e : Event) :
  run st (es ++ [e]) = step (run st es) e.
Proof. unfold run. now rewrite fold_left_app. Qed.

(** The reachable states are the runs from the mounted initial state. *)
Lemma reachable_run (st : State) :
  reachable st <-> exists es, st = run (effect initialState) es.
Proof.
  split.
  - induction 1 as [|st e _ (es & ->)].
    + now exists [].
    + exists (es ++ [e]). now rewrite run_snoc.
  - intros (es & ->). induction es as [|e es IH] using rev_ind.
    + constructor.
    + rewrite run_snoc. now constructor.
Qed.

Lemma get_initialMeals (d : Day) : get initialMeals d = [].
Proof. now destruct d. Qed.

(** C4.  From the initial ledger, [N] calls of [onSubmit] with records of
    one day [d] leave exactly those records under [d], in call order, so
    the list has length [N]; and neither [calculateTotals] nor
    [setCurrentDay] nor a rejected submission changes the ledger, so that in
    every run of events a day's list is the accepted submissions for that
    day, in order. *)
Theorem onSubmit_appends_in_order :
  (forall (rs : list Meal) (d : Day),
      Forall (fun r => day r = d) rs ->
      get (meals (fold_left onSubmit rs initialState)) d = rs
      /\ List.length (get (meals (fold_left onSubmit rs initialState)) d)
         = List.length rs)
  /\ (forall d, get (meals initialState) d = [])
  /\ (forall st d, meals (calculateTotals st d) = meals st)
  /\ (forall st d, meals (setCurrentDay st d) = meals st)
  /\ (forall st v errs, safeParse v = inr errs -> meals (handleSubmit st v) = meals st)
  /\ (forall es d,
         get (meals (run (effect initialState) es)) d = of_day d (accepted es)).
Proof.
  refine (conj _ (conj _ (conj _ (conj _ (conj _ _))))).
  - intros rs d H.
    assert (E : get (meals (fold_left onSubmit rs initialState)) d = rs).
    { rewrite fold_onSubmit_meals. cbn [initialState meals].
      rewrite get_initialMeals. cbn [app]. now apply of_day_all. }
    split; [exact E | now rewrite E].
  - apply get_initialMeals.
  - apply meals_calculateTotals.
  - reflexivity.
  - intros st v errs H. unfold handleSubmit. now rewrite H.
  - intros es d. rewrite meals_run, meals_effect.
    cbn [initialState meals]. now rewrite get_initialMeals.
Qed.

End Ledger.

(* ================================================================== *)
(** ** The validator *)

Section Validator.
Import JS JSFacts.

Lemma parse_day_name (d : Day) : parse_day (day_name d) = Some d.
Proof. now destruct d. Qed.

Lemma parse_day_Some (s : string) (d : Day) :
  parse_day s = Some d -> s = day_name d.
Proof.
  unfold parse_day. intros H. apply find_some in H as [_ H].
  now apply String.eqb_eq.
Qed.

Lemma parse_day_In (s : string) :
  In s (map day_name DAYS) <-> exists d, parse_day s = Some d.
Proof.
  split.
  - intros H. apply in_map_iff in H as (d & <- & _).
    exists d. apply parse_day_name.
  - intros (d & H). apply parse_day_Some in H. subst s.
    apply in_map. destruct d; simpl; tauto.
Qed.

Lemma check_day_nil (s : string) :
  check_day s = [] <-> In s (map day_name DAYS).
Proof.
  rewrite parse_day_In. unfold check_day.
  destruct (parse_day s) as [d|]; split; try discriminate; eauto.
  intros (d & H). discriminate.
Qed.

Lemma check_name_nil (s : string) :
  check_name s = [] <-> 2 <= String.length s.
Proof.
  unfold check_name. destruct (Nat.ltb_spec (String.length s) 2); split;
    intros; try reflexivity; try discriminate; lia.
Qed.

Lemma ge_zero_cases (x : number) :
  (x >=? zero)%js = true <-> isNaN x = false /\ (x <? zero)%js = false.
Proof.
  destruct x; simpl;
    try (split; [intros H; split; congruence | intros [H1 H2]; congruence]).
  destruct (Qccompare q (Q2Qc 0%Q));
    (split; [intros H; split; congruence | intros [H1 H2]; congruence]).
Qed.

Lemma check_macro_nil (field : string) (x : number) :
  check_macro field x = [] <-> (x >=? zero)%js = true.
Proof.
  rewrite ge_zero_cases. unfold check_macro.
  destruct (isNaN x), (x <? zero)%js;
    (split; [intros H; split; congruence | intros [H1 H2]; congruence]).
Qed.

Lemma app_nil_iff {A} (l1 l2 : list A) : l1 ++ l2 = [] <-> l1 = [] /\ l2 = [].
Proof.
  split.
  - apply app_eq_nil.
  - now intros [-> ->].
Qed.

(** The schema raises no issue exactly on the values that satisfy every
    rule. *)
Lemma issues_nil (v : FormValues) : issues v = [] <-> valid_values v.
Proof.
  unfold issues, valid_values.
  rewrite !app_nil_iff, check_day_nil, check_name_nil, !check_macro_nil.
  tauto.
Qed.

Lemma safeParse_inl (v : FormValues) (m : Meal) :
  safeParse v = inl m <->
  valid_values v
  /\ parse_day (fv_day v) = Some (day m)
  /\ name m = fv_name v
  /\ protein m = fv_protein v /\ carbs m = fv_carbs v /\ fat m = fv_fat v.
Proof.
  unfold safeParse. rewrite <- issues_nil. split.
  - destruct (parse_day (fv_day v)) as [d|]; [|discriminate].
    destruct (issues v); [|discriminate].
    intros [= <-]. cbn. tauto.
  - intros (-> & -> & Hn & Hp & Hc & Hf).
    destruct m; cbn in *. now subst.
Qed.

Lemma safeParse_inr (v : FormValues) (errs : list ZodIssue) :
  safeParse v = inr errs <-> errs = issues v /\ issues v <> [].
Proof.
  unfold safeParse. split.
  - destruct (parse_day (fv_day v)) as [d|] eqn:E.
    + destruct (issues v); [discriminate|]. intros [= <-]. now split.
    + intros [= <-]. split; [reflexivity|].
      unfold issues, check_day. rewrite E. discriminate.
  - intros [-> H]. destruct (parse_day (fv_day v)), (issues v); congruence.
Qed.

Lemma safeParse_valid (v : FormValues) (m : Meal) :
  safeParse v = inl m -> valid_meal m.
Proof.
  intros H. apply safeParse_inl in H as (V & _ & Hn & Hp & Hc & Hf).
  unfold valid_values in V. unfold valid_meal.
  rewrite Hn, Hp, Hc, Hf. tauto.
Qed.

End Validator.

Section ValidatorClaims.
Import JS JSFacts.

Lemma In_check_day (s : string) (i : ZodIssue) :
  In i (check_day s) -> i = InvalidDay.
Proof.
  unfold check_day. destruct (parse_day s); simpl; [tauto|].
  intros [<-|[]]. reflexivity.
Qed.

Lemma In_check_name (s : string) (i : ZodIssue) :
  In i (check_name s) <-> i = NameTooShort /\ String.length s < 2.
Proof.
  unfold check_name. destruct (Nat.ltb_spec (String.length s) 2); simpl.
  - split; [intros [<-|[]]; now split | intros [-> _]; now left].
  - split; [tauto | lia].
Qed.

Lemma In_check_macro (field : string) (x : number) (i : ZodIssue) :
  In i (check_macro field x) -> path i = field.
Proof.
  unfold check_macro. destruct (isNaN x); [|destruct (x <? zero)%js]; simpl.
  - now intros [<-|[]].
  - now intros [<-|[]].
  - tauto.
Qed.

Lemma negative_check_macro (field : string) (x : number) :
  (x <? zero)%js = true -> check_macro field x = [NegativeMacro field].
Proof.
  intros H. unfold check_macro. rewrite H.
  destruct x; try reflexivity. discriminate.
Qed.

Lemma In_issues (v : FormValues) (i : ZodIssue) :
  In i (issues v) <->
  In i (check_day (fv_day v)) \/ In i (check_name (fv_name v))
  \/ In i (check_macro "protein" (fv_protein v))
  \/ In i (check_macro "carbs" (fv_carbs v))
  \/ In i (check_macro "fat" (fv_fat v)).
Proof. unfold issues. rewrite !in_app_iff. tauto. Qed.

(** A value with an issue is rejected, with all of its issues. *)
Lemma rejected_with (v : FormValues) (i : ZodIssue) :
  In i (issues v) -> safeParse v = inr (issues v).
Proof.
  intros H. apply safeParse_inr. split; [reflexivity|].
  intros E. now rewrite E in H.
Qed.

(** C6.  [mealFormSchema] rejects form values with the issue on [name]
    (the specification's NameTooShort) exactly when the name has fewer than
    two characters; the name "A" is rejected with it, and values named "AB"
    that pass the other rules are accepted. *)
Theorem name_too_short_iff :
  (forall v,
      (exists errs, safeParse v = inr errs /\ In NameTooShort errs)
      <-> String.length (fv_name v) < 2)
  /\ (forall v, fv_name v = "A" ->
                exists errs, safeParse v = inr errs /\ In NameTooShort errs)
  /\ (forall v, fv_name v = "AB" ->
                In (fv_day v) (map day_name DAYS) ->
                (fv_protein v >=? zero)%js = true ->
                (fv_carbs v >=? zero)%js = true ->
                (fv_fat v >=? zero)%js = true ->
                exists m, safeParse v = inl m /\ name m = "AB").
Proof.
  refine (conj _ (conj _ _)).
  - intros v. split.
    + intros (errs & H & Hin). apply safeParse_inr in H as [-> _].
      apply In_issues in Hin as [H|[H|[H|[H|H]]]].
      * apply In_check_day in H. discriminate.
      * now apply In_check_name in H.
      * apply In_check_macro in H. discriminate.
      * apply In_check_macro in H. discriminate.
      * apply In_check_macro in H. discriminate.
    + intros H.
      assert (Hin : In NameTooShort (issues v)).
      { apply In_issues. right. left. now apply In_check_name. }
      exists (issues v). split; [now apply rejected_with with NameTooShort | exact Hin].
  - intros v Hn.
    assert (Hin : In NameTooShort (issues v)).
    { apply In_issues. right. left. apply In_check_name.
      split; [reflexivity | rewrite Hn; cbn; lia]. }
    exists (issues v). split; [now apply rejected_with with NameTooShort | exact Hin].
  - intros v Hn Hd Hp Hc Hf.
    destruct (proj1 (parse_day_In _) Hd) as (d & Hpd).
    exists (mkMeal d (fv_name v) (fv_protein v) (fv_carbs v) (fv_fat v)).
    split; [|exact Hn].
    apply safeParse_inl. cbn. repeat split; try assumption.
    rewrite Hn. cbn. lia.
Qed.

Lemma name_too_short_iff_witness :
  (exists errs,
      safeParse (mkFormValues "monday" "A" zero zero zero) = inr errs
      /\ In NameTooShort errs)
  /\ (exists m,
         safeParse (mkFormValues "monday" "AB" zero zero zero) = inl m
         /\ name m = "AB").
Proof.
  destruct name_too_short_iff as (_ & HA & HAB). split.
  - apply HA. reflexivity.
  - apply HAB; try reflexivity. cbn. tauto.
Defined.

(** The issue of a negative macro at [field] is raised by the check of
    that macro, and only when the macro is below zero. *)
Lemma In_negative_check_macro (field : string) (x : number) :
  In (NegativeMacro field) (check_macro field x) <-> (x <? zero)%js = true.
Proof.
  split.
  - unfold check_macro. destruct (isNaN x).
    + intros [H|[]]. discriminate.
    + destruct (x <? zero)%js; [reflexivity | intros []].
  - intros H. rewrite negative_check_macro by exact H. now left.
Qed.

Lemma In_negative_issues (v : FormValues) :
  (In (NegativeMacro "protein") (issues v) <-> (fv_protein v <? zero)%js = true)
  /\ (In (NegativeMacro "carbs") (issues v) <-> (fv_carbs v <? zero)%js = true)
  /\ (In (NegativeMacro "fat") (issues v) <-> (fv_fat v <? zero)%js = true).
Proof.
  rewrite !In_issues, <- !In_negative_check_macro.
  repeat split; intros H;
    try (repeat (destruct H as [H|H]); try exact H;
         first [ apply In_check_day in H; discriminate
               | apply In_check_name in H as [H _]; discriminate
               | apply In_check_macro in H; discriminate ]);
    tauto.
Qed.

(** C7.  Form values in which protein, carbs or fat is below zero are
    rejected, and the error names the offending fields and no other: a
    failed parse carries the issue of a negative macro at the path of a
    field (the specification's NegativeMacro(field)) exactly when that field
    is below zero, each negative macro having its own issue.  With protein
    -1 the issue is the one at "protein". *)
Theorem negative_macro_rejected_per_field :
  (forall v,
      (fv_protein v <? zero)%js = true \/ (fv_carbs v <? zero)%js = true
      \/ (fv_fat v <? zero)%js = true ->
      exists errs,
        safeParse v = inr errs
        /\ ((fv_protein v <? zero)%js = true -> In (NegativeMacro "protein") errs)
        /\ ((fv_carbs v <? zero)%js = true -> In (NegativeMacro "carbs") errs)
        /\ ((fv_fat v <? zero)%js = true -> In (NegativeMacro "fat") errs))
  /\ (forall v errs,
         safeParse v = inr errs ->
         (In (NegativeMacro "protein") errs <-> (fv_protein v <? zero)%js = true)
         /\ (In (NegativeMacro "carbs") errs <-> (fv_carbs v <? zero)%js = true)
         /\ (In (NegativeMacro "fat") errs <-> (fv_fat v <? zero)%js = true))
  /\ (forall v, fv_protein v = of_Z (-1) ->
                exists errs, safeParse v = inr errs
                             /\ In (NegativeMacro "protein") errs)
  /\ (forall v errs i, safeParse v = inr errs -> In i errs ->
                       In (path i) ["day"; "name"; "protein"; "carbs"; "fat"]).
Proof.
  assert (P : forall v, (fv_protein v <? zero)%js = true ->
                        In (NegativeMacro "protein") (issues v)).
  { intros v H. apply In_issues. right. right. left.
    rewrite negative_check_macro by exact H. now left. }
  assert (C : forall v, (fv_carbs v <? zero)%js = true ->
                        In (NegativeMacro "carbs") (issues v)).
  { intros v H. apply In_issues. right. right. right. left.
    rewrite negative_check_macro by exact H. now left. }
  assert (F : forall v, (fv_fat v <? zero)%js = true ->
                        In (NegativeMacro "fat") (issues v)).
  { intros v H. apply In_issues. right. right. right. right.
    rewrite negative_check_macro by exact H. now left. }
  refine (conj _ (conj _ (conj _ _))).
  - intros v H. exists (issues v). split; [|auto].
    destruct H as [H|[H|H]].
    + eapply rejected_with, P, H.
    + eapply rejected_with, C, H.
    + eapply rejected_with, F, H.
  - intros v errs H. apply safeParse_inr in H as [-> _].
    apply In_negative_issues.
  - intros v H.
    assert (L : (fv_protein v <? zero)%js = true) by now rewrite H.
    exists (issues v). split; [eapply rejected_with|]; apply P, L.
  - intros v errs i H Hin. apply safeParse_inr in H as [-> _].
    apply In_issues in Hin as [H|[H|[H|[H|H]]]].
    + apply In_check_day in H. subst i. cbn. tauto.
    + apply In_check_name in H as [-> _]. cbn. tauto.
    + apply In_check_macro in H. rewrite H. cbn. tauto.
    + apply In_check_macro in H. rewrite H. cbn. tauto.
    + apply In_check_macro in H. rewrite H. cbn. tauto.
Qed.

Lemma negative_macro_rejected_per_field_witness :
  exists errs,
    safeParse (mkFormValues "monday" "Soup" (of_Z 5) (of_Z 5) (of_Z (-3))) = inr errs
    /\ In (NegativeMacro "fat") errs
    /\ ~ In (NegativeMacro "protein") errs
    /\ ~ In (NegativeMacro "carbs") errs.
Proof.
  destruct negative_macro_rejected_per_field as (H & Hiff & _ & _).
  destruct (H (mkFormValues "monday" "Soup" (of_Z 5) (of_Z 5) (of_Z (-3))))
    as (errs & E & _ & _ & Hf).
  - right. right. reflexivity.
  - exists errs. split; [exact E|].
    destruct (Hiff _ errs E) as (Ip & Ic & _).
    split; [apply Hf; reflexivity|].
    split; intros Hin; [apply Ip in Hin | apply Ic in Hin]; discriminate.
Defined.

(** C8.  [mealFormSchema] accepts all form values whose day is one of the
    seven names, whose name has at least two characters and whose macros are
    at least 0, and returns them unchanged; there is no upper bound, so
    every non-negative rational is accepted, however large.  Validation
    is a function of the form values alone: it does not read or write the
    state, a rejected submission leaves the state as it was, and an accepted
    one changes it through [onSubmit] only. *)
Theorem valid_values_accepted :
  (forall v, valid_values v ->
             exists m, safeParse v = inl m
                       /\ day_name (day m) = fv_day v /\ name m = fv_name v
                       /\ protein m = fv_protein v /\ carbs m = fv_carbs v
                       /\ fat m = fv_fat v)
  /\ (forall d n (p c f : Qc),
         2 <= String.length n ->
         (Q2Qc 0%Q <= p)%Qc -> (Q2Qc 0%Q <= c)%Qc -> (Q2Qc 0%Q <= f)%Qc ->
         safeParse (mkFormValues (day_name d) n (Num p) (Num c) (Num f))
         = inl (mkMeal d n (Num p) (Num c) (Num f)))
  /\ (forall st v m, safeParse v = inl m -> handleSubmit st v = onSubmit st m)
  /\ (forall st v errs, safeParse v = inr errs -> handleSubmit st v = st).
Proof.
  refine (conj _ (conj _ (conj _ _))).
  - intros v V.
    destruct V as (Hd & Hn & Hp & Hc & Hf).
    destruct (proj1 (parse_day_In _) Hd) as (d & Hpd).
    exists (mkMeal d (fv_name v) (fv_protein v) (fv_carbs v) (fv_fat v)).
    split.
    + apply safeParse_inl. cbn. unfold valid_values. tauto.
    + cbn. apply parse_day_Some in Hpd. auto.
  - intros d n p c f Hn Hp Hc Hf. apply safeParse_inl.
    unfold valid_values.
    cbn [fv_day fv_name fv_protein fv_carbs fv_fat day name protein carbs fat].
    rewrite parse_day_name, !ge_zero_Num.
    repeat split; try assumption.
    apply in_map. destruct d; simpl; tauto.
  - intros st v m H. unfold handleSubmit. now rewrite H.
  - intros st v errs H. unfold handleSubmit. now rewrite H.
Qed.

Lemma valid_values_accepted_witness :
  safeParse (mkFormValues "sunday" "Roast" (of_Z 1000000) zero (of_Z 7))
  = inl (mkMeal sunday "Roast" (of_Z 1000000) zero (of_Z 7)).
Proof.
  destruct valid_values_accepted as (H & _ & _ & _).
  destruct (H (mkFormValues "sunday" "Roast" (of_Z 1000000) zero (of_Z 7)))
    as (m & E & Hd & Hn & Hp & Hc & Hf).
  - unfold valid_values. cbn. repeat split; auto 10.
  - rewrite E. f_equal. destruct m as [d n p c f]. cbn in *. subst.
    destruct d; try discriminate. reflexivity.
Defined.

End ValidatorClaims.

Section LedgerClaims.
Import JS JSFacts.

Lemma In_accepted_valid (e : Event) (m : Meal) :
  In m (accepted [e]) -> valid_meal m.
Proof.
  unfold accepted. cbn [flat_map]. rewrite app_nil_r.
  destruct e as [v|d]; [|intros []].
  destruct (safeParse v) as [values|errs] eqn:E; [|intros []].
  intros [<-|[]]. now apply safeParse_valid in E.
Qed.

Lemma In_of_day (d : Day) (ms : list Meal) (m : Meal) :
  In m (of_day d ms) <-> In m ms /\ day m = d.
Proof.
  unfold of_day. rewrite filter_In.
  destruct (Day_eq_dec (day m) d); intuition congruence.
Qed.

(** C5.  In every state the component can reach, every record stored under
    a day has that day, which is one of the seven, a name of at least two
    characters, and protein, carbs and fat that are each at least 0. *)
Theorem stored_meals_valid (st : State) :
  reachable st ->
  forall d m, In m (get (meals st) d) ->
              In (day m) DAYS /\ day m = d /\ valid_meal m.
Proof.
  induction 1 as [|st e _ IH]; intros d m Hin.
  - rewrite meals_effect in Hin. cbn [initialState meals] in Hin.
    rewrite get_initialMeals in Hin. destruct Hin.
  - rewrite meals_step in Hin. apply in_app_iff in Hin as [Hin|Hin].
    + now apply IH.
    + apply In_of_day in Hin as [Hin Hd].
      split; [|split].
      * destruct (day m); simpl; tauto.
      * exact Hd.
      * now apply In_accepted_valid with e.
Qed.

Lemma stored_meals_valid_witness :
  let v := mkFormValues "tuesday" "Oats" (of_Z 10) (of_Z 10) (of_Z 10) in
  let m := mkMeal tuesday "Oats" (of_Z 10) (of_Z 10) (of_Z 10) in
  let st := step (step (effect initialState) (Submit v)) (SelectDay tuesday) in
  In m (get (meals st) tuesday) /\ valid_meal m.
Proof.
  intros v m st.
  assert (Hin : In m (get (meals st) tuesday)) by (left; reflexivity).
  split; [exact Hin|].
  assert (R : reachable st) by (repeat constructor).
  exact (proj2 (proj2 (stored_meals_valid st R tuesday m Hin))).
Defined.

(** C9.  [onSubmit] with a record [r] changes the list of [r]'s day only:
    under every other day the list is the one that was there before. *)
Theorem onSubmit_frame (st : State) (r : Meal) (d : Day) :
  d <> day r ->
  get (meals (onSubmit st r)) d = get (meals st) d.
Proof. apply meals_onSubmit_other. Qed.

Lemma onSubmit_frame_witness :
  let r1 := mkMeal monday "Eggs" (of_Z 12) zero (of_Z 10) in
  let r2 := mkMeal friday "Rice" (of_Z 4) (of_Z 45) zero in
  get (meals (onSubmit (onSubmit initialState r1) r2)) monday = [r1].
Proof.
  intros r1 r2.
  rewrite (onSubmit_frame (onSubmit initialState r1) r2 monday).
  - reflexivity.
  - discriminate.
Defined.

Lemma onSubmit_appends_in_order_witness :
  let r1 := mkMeal monday "Eggs" (of_Z 10) (of_Z 10) (of_Z 10) in
  let r2 := mkMeal monday "Water" zero zero zero in
  get (meals (fold_left onSubmit [r1; r2] initialState)) monday = [r1; r2]
  /\ List.length (get (meals (fold_left onSubmit [r1; r2] initialState)) monday) = 2.
Proof.
  intros r1 r2.
  destruct onSubmit_appends_in_order as (H & _).
  apply (H [r1; r2] monday). repeat constructor.
Defined.

End LedgerClaims.

(* ================================================================== *)
(** ** The arrays as shared objects: the value model is faithful, and
       [meals[day]] is the stored array *)

Section SharedArrays.
Import JS Refs.

Lemma weekly_ext {A} (w1 w2 : Weekly A) :
  (forall d, get w1 d = get w2 d) -> w1 = w2.
Proof.
  intros H. destruct w1, w2.
  pose proof (H monday). pose proof (H tuesday). pose proof (H wednesday).
  pose proof (H thursday). pose proof (H friday). pose proof (H saturday).
  pose proof (H sunday). cbn in *. congruence.
Qed.

Lemma get_weekly_map {A B} (f : A -> B) (w : Weekly A) (d : Day) :
  get (weekly_map f w) d = f (get w d).
Proof. now destruct d. Qed.

Lemma deref_alloc_fresh (h : Heap) (l : list Meal) :
  deref (h ++ [l]) (List.length h) = l.
Proof. unfold deref. now rewrite nth_middle. Qed.

Lemma deref_alloc_old (h : Heap) (l : list Meal) (a : addr) :
  a < List.length h -> deref (h ++ [l]) a = deref h a.
Proof. intros H. unfold deref. now apply app_nth1. Qed.

Lemma deref_push_same (h : Heap) (a : addr) (x : Meal) :
  a < List.length h -> deref (array_push h a x) a = deref h a ++ [x].
Proof.
  unfold deref. revert a. induction h as [|l h IH]; intros a H; cbn in H.
  - lia.
  - destruct a as [|a]; cbn; [reflexivity|]. apply IH. lia.
Qed.

Lemma deref_push_other (h : Heap) (a a' : addr) (x : Meal) :
  a' <> a -> deref (array_push h a x) a' = deref h a'.
Proof.
  unfold deref. revert a a'. induction h as [|l h IH]; intros a a' H.
  - reflexivity.
  - destruct a as [|a], a' as [|a']; cbn; try reflexivity; try congruence.
    apply IH. congruence.
Qed.

Lemma value_of_initialStore : value_of initialStore = initialState.
Proof. reflexivity. Qed.

Lemma wf_initialStore : wf initialStore.
Proof. intros d. destruct d; cbn; lia. Qed.

Lemma wf_onSubmit_store (s : Store) (r : Meal) :
  wf s -> wf (onSubmit_store s r).
Proof.
  intros W d. unfold onSubmit_store. cbn [heap refs].
  rewrite length_app. cbn [List.length].
  destruct (Day_eq_dec d (day r)) as [->|N].
  - rewrite get_set_same. lia.
  - rewrite get_set_other by exact N. specialize (W d). lia.
Qed.

(** [onSubmit] on the heap is [onSubmit] on values. *)
Lemma value_of_onSubmit_store (s : Store) (r : Meal) :
  wf s -> value_of (onSubmit_store s r) = onSubmit (value_of s) r.
Proof.
  intros W. unfold value_of, onSubmit_store, onSubmit.
  cbn [heap refs s_currentDay s_currentCalories s_macroPercentages
       meals currentDay currentCalories macroPercentages].
  f_equal. apply weekly_ext. intros d.
  rewrite get_weekly_map.
  destruct (Day_eq_dec d (day r)) as [->|N].
  - rewrite !get_set_same, deref_alloc_fresh. now rewrite get_weekly_map.
  - rewrite !get_set_other by exact N.
    rewrite get_weekly_map. apply deref_alloc_old, W.
Qed.

Lemma value_of_calculateTotals_store (s : Store) (d : Day) :
  value_of (calculateTotals_store s d) = calculateTotals (value_of s) d.
Proof.
  unfold calculateTotals_store, calculateTotals, value_of, mealsFor.
  cbn [meals currentDay]. rewrite get_weekly_map.
  now destruct (summarize (deref (heap s) (get (refs s) d))).
Qed.

(** C10, as the specification states it, fails: [meals[day]] is the stored
    array, so a [push] on what it returns shows in the ledger. *)
Lemma push_on_returned_array_changes_ledger :
  let x := mkMeal monday "Toast" (of_Z 3) (of_Z 15) (of_Z 1) in
  let s' := push_through initialStore (mealsFor initialStore monday) x in
  get (meals (value_of initialStore)) monday = []
  /\ get (meals (value_of s')) monday = [x]
  /\ meals (value_of s') <> meals (value_of initialStore).
Proof.
  intros x s'. split; [reflexivity|]. split; [reflexivity|].
  intros E. apply (f_equal (fun w => get w monday)) in E.
  cbn in E. discriminate.
Qed.

(** C10, amended.  [meals[day]] evaluates to the stored array itself: it
    holds the current records of the day, no copy is made, and a [push]
    through it appends to the ledger's own list.  The component's readers of
    it, [calculateTotals] and the table body, only read: they leave the heap
    and the seven references, hence the ledger, as they were. *)
Theorem mealsFor_is_the_stored_array :
  (forall s d, deref (heap s) (mealsFor s d) = get (meals (value_of s)) d)
  /\ (forall s d x,
         wf s ->
         get (meals (value_of (push_through s (mealsFor s d) x))) d
         = get (meals (value_of s)) d ++ [x])
  /\ (forall s d,
         heap (calculateTotals_store s d) = heap s
         /\ refs (calculateTotals_store s d) = refs s
         /\ meals (value_of (calculateTotals_store s d)) = meals (value_of s))
  /\ (forall s d, tableRows_store s d = tableRows (value_of s) d).
Proof.
  refine (conj _ (conj _ (conj _ _))).
  - intros s d. unfold mealsFor, value_of. cbn [meals].
    now rewrite get_weekly_map.
  - intros s d x W. unfold value_of, push_through, mealsFor.
    cbn [meals heap refs]. rewrite !get_weekly_map.
    apply deref_push_same, W.
  - intros s d. unfold calculateTotals_store.
    destruct (summarize (deref (heap s) (mealsFor s d))). now cbn.
  - intros s d. unfold tableRows_store, tableRows, mealsFor, value_of.
    cbn [meals]. now rewrite get_weekly_map.
Qed.

Lemma mealsFor_is_the_stored_array_witness :
  let r := mkMeal sunday "Stew" (of_Z 30) (of_Z 20) (of_Z 10) in
  let x := mkMeal sunday "Cake" (of_Z 4) (of_Z 40) (of_Z 12) in
  let s := onSubmit_store initialStore r in
  get (meals (value_of (push_through s (mealsFor s sunday) x))) sunday = [r; x].
Proof.
  intros r x s.
  destruct mealsFor_is_the_stored_array as (_ & H & _).
  rewrite (H s sunday x).
  - reflexivity.
  - apply wf_onSubmit_store, wf_initialStore.
Defined.

End SharedArrays.

(* ================================================================== *)
(** ** The displayed summary *)

Section Summary.
Import JS JSFacts.

Lemma currentDay_calculateTotals (st : State) (d : Day) :
  currentDay (calculateTotals st d) = currentDay st.
Proof. now rewrite calculateTotals_summarize. Qed.

(** The effect reads the ledger and the selected day only. *)
Lemma effect_ext (a b : State) :
  meals a = meals b -> currentDay a = currentDay b -> effect a = effect b.
Proof.
  intros Hm Hd. unfold effect. rewrite !calculateTotals_summarize.
  now rewrite Hm, Hd.
Qed.

Lemma effect_idem (st : State) : effect (effect st) = effect st.
Proof.
  apply effect_ext.
  - apply meals_effect.
  - apply currentDay_calculateTotals.
Qed.

Lemma step_is_effect (st : State) (e : Event) : exists st', step st e = effect st'.
Proof. destruct e; cbn [step]; eauto. Qed.

(** A reachable state is settled: running the effect again changes nothing. *)
Lemma reachable_settled (st : State) : reachable st -> effect st = st.
Proof.
  intros R. destruct R as [|st e _].
  - apply effect_idem.
  - destruct (step_is_effect st e) as (st' & ->). apply effect_idem.
Qed.

Lemma settled_summary (st : State) :
  effect st = st ->
  currentCalories st = fst (summarize (get (meals st) (currentDay st)))
  /\ macroPercentages st = snd (summarize (get (meals st) (currentDay st))).
Proof.
  intros E. unfold effect in E. rewrite calculateTotals_summarize in E.
  split.
  - now rewrite <- E at 1.
  - now rewrite <- E at 1.
Qed.

Lemma meals_handleSubmit_ext (a b : State) (v : FormValues) :
  meals a = meals b -> meals (handleSubmit a v) = meals (handleSubmit b v).
Proof.
  intros Hm. unfold handleSubmit. destruct (safeParse v); [|exact Hm].
  unfold onSubmit. cbn [meals]. now rewrite Hm.
Qed.

Lemma currentDay_handleSubmit (st : State) (v : FormValues) :
  currentDay (handleSubmit st v) = currentDay st.
Proof. unfold handleSubmit. now destruct (safeParse v). Qed.

Lemma set_set_other {A} (w : Weekly A) (d1 d2 : Day) (x y : A) :
  d1 <> d2 -> set (set w d1 x) d2 y = set (set w d2 y) d1 x.
Proof. destruct d1, d2; cbn; congruence. Qed.

Lemma setCurrentDay_same (st : State) : setCurrentDay st (currentDay st) = st.
Proof. now destruct st. Qed.

Lemma day_eqb_true (a b : Day) : day_eqb a b = true <-> a = b.
Proof. unfold day_eqb. destruct (Day_eq_dec a b); split; congruence. Qed.

(** Where the effect is skipped, running it would have changed nothing. *)
Lemma step_render_settled (st : State) (e : Event) :
  effect st = st -> effect (step_render st e) = step_render st e.
Proof.
  intros S. unfold step_render, flush.
  destruct e as [v|d]; cbn [handler].
  - destruct (safeParse v); cbn [fst snd]; [apply effect_idem | exact S].
  - cbn [fst snd]. destruct (day_eqb d (currentDay st)) eqn:E; cbn [negb].
    + apply day_eqb_true in E. subst d. now rewrite setCurrentDay_same.
    + apply effect_idem.
Qed.

Lemma at_rest_settled (st : State) : at_rest st -> effect st = st.
Proof.
  induction 1 as [|st e _ IH].
  - apply effect_idem.
  - now apply step_render_settled.
Qed.

Lemma step_render_step (st : State) (e : Event) :
  effect st = st -> step_render st e = step st e.
Proof.
  intros S. unfold step_render, flush.
  destruct e as [v|d]; cbn [handler step].
  - unfold handleSubmit. destruct (safeParse v); cbn [fst snd]; congruence.
  - cbn [fst snd]. destruct (day_eqb d (currentDay st)) eqn:E; cbn [negb].
    + apply day_eqb_true in E. subst d. now rewrite setCurrentDay_same.
    + reflexivity.
Qed.

(** The render that a handler commits, before the effect has run, can show
    the summary of the previous ledger. *)
Example stale_render_before_effect :
  let e := Submit (mkFormValues "monday" "Eggs" (of_Z 10) (of_Z 10) (of_Z 10)) in
  let committed := fst (handler (effect initialState) e) in
  currentCalories committed = zero
  /\ fst (summarize (get (meals committed) (currentDay committed))) = of_Z 170
  /\ currentCalories (step_render (effect initialState) e) = of_Z 170.
Proof. repeat split. Qed.

(** X1.  Whenever the page is at rest (after the mount and after each
    event, once the effect has run if [meals] or [currentDay] changed), the
    calories and the percentages on display are the totals of the ledger's
    list for the selected day.  The dependency list of the effect is
    therefore enough: where the effect is skipped, the summary was already
    the right one, and running the effect after every event gives the same
    states. *)
Theorem displayed_summary_is_current :
  (forall st,
      at_rest st ->
      currentCalories st = fst (summarize (get (meals st) (currentDay st)))
      /\ macroPercentages st = snd (summarize (get (meals st) (currentDay st))))
  /\ (forall st e, at_rest st -> step_render st e = step st e)
  /\ (forall st, at_rest st <-> reachable st).
Proof.
  refine (conj _ (conj _ _)).
  - intros st R. now apply settled_summary, at_rest_settled.
  - intros st e R. now apply step_render_step, at_rest_settled.
  - intros st. split.
    + induction 1 as [|st e R IH].
      * constructor.
      * rewrite step_render_step by now apply at_rest_settled.
        now constructor.
    + induction 1 as [|st e R IH].
      * constructor.
      * rewrite <- step_render_step by now apply at_rest_settled.
        now constructor.
Qed.

Lemma displayed_summary_is_current_witness :
  let v := mkFormValues "monday" "Eggs" (of_Z 10) (of_Z 10) (of_Z 10) in
  let st := step_render (step_render (effect initialState) (Submit v))
              (SelectDay monday) in
  currentCalories st = of_Z 170.
Proof.
  intros v st.
  assert (R : at_rest st) by (repeat constructor).
  destruct displayed_summary_is_current as (H & _ & _).
  rewrite (proj1 (H st R)). reflexivity.
Defined.

(** X2.  In a reachable state a rejected submission changes nothing at
    all, not even the summary, and so does selecting the day that is already
    selected. *)
Theorem rejected_submit_and_reselect_are_noops (st : State) :
  reachable st ->
  (forall v errs, safeParse v = inr errs -> step st (Submit v) = st)
  /\ step st (SelectDay (currentDay st)) = st.
Proof.
  intros R. apply reachable_settled in R. split.
  - intros v errs H. cbn [step]. unfold handleSubmit. now rewrite H.
  - cbn [step]. rewrite <- R at 3. apply effect_ext; reflexivity.
Qed.

Lemma rejected_submit_and_reselect_are_noops_witness :
  let st := step (effect initialState)
              (Submit (mkFormValues "friday" "Rice" (of_Z 4) (of_Z 45) zero)) in
  step st (Submit (mkFormValues "friday" "R" (of_Z 4) (of_Z 45) zero)) = st
  /\ step st (SelectDay monday) = st.
Proof.
  intros st.
  assert (R : reachable st) by (repeat constructor).
  destruct (rejected_submit_and_reselect_are_noops st R) as [H1 H2].
  split; [|exact H2].
  apply (H1 _ [NameTooShort]). reflexivity.
Defined.

(** X3.  Events compose without regard to order where they touch
    different things: a later day selection overrides an earlier one,
    selecting a day and submitting values can be done in either order, and
    two accepted submissions for different days can be swapped. *)
Theorem independent_events_commute :
  (forall st a b,
      step (step st (SelectDay a)) (SelectDay b) = step st (SelectDay b))
  /\ (forall st d v,
         step (step st (SelectDay d)) (Submit v)
         = step (step st (Submit v)) (SelectDay d))
  /\ (forall st v1 v2 m1 m2,
         safeParse v1 = inl m1 -> safeParse v2 = inl m2 ->
         day m1 <> day m2 ->
         step (step st (Submit v1)) (Submit v2)
         = step (step st (Submit v2)) (Submit v1)).
Proof.
  refine (conj _ (conj _ _)).
  - intros st a b. cbn [step]. apply effect_ext; cbn [setCurrentDay meals currentDay].
    + now rewrite meals_effect.
    + reflexivity.
  - intros st d v. cbn [step]. apply effect_ext.
    + cbn [setCurrentDay meals]. rewrite meals_effect.
      apply meals_handleSubmit_ext. now rewrite meals_effect.
    + rewrite currentDay_handleSubmit. unfold effect.
      now rewrite currentDay_calculateTotals.
  - intros st v1 v2 m1 m2 H1 H2 N. cbn [step]. unfold handleSubmit.
    rewrite H1, H2. apply effect_ext.
    + unfold onSubmit at 1 3. cbn [meals]. rewrite !meals_effect.
      unfold onSubmit. cbn [meals].
      rewrite (get_set_other _ (day m1) (day m2)) by congruence.
      rewrite (get_set_other _ (day m2) (day m1)) by congruence.
      now apply set_set_other.
    + unfold onSubmit at 1 3. cbn [currentDay]. unfold effect.
      now rewrite !currentDay_calculateTotals.
Qed.

Lemma independent_events_commute_witness :
  let v1 := mkFormValues "monday" "Eggs" (of_Z 12) zero (of_Z 10) in
  let v2 := mkFormValues "friday" "Rice" (of_Z 4) (of_Z 45) zero in
  step (step (effect initialState) (Submit v1)) (Submit v2)
  = step (step (effect initialState) (Submit v2)) (Submit v1).
Proof.
  intros v1 v2.
  destruct independent_events_commute as (_ & _ & H).
  apply (H _ v1 v2 (mkMeal monday "Eggs" (of_Z 12) zero (of_Z 10))
           (mkMeal friday "Rice" (of_Z 4) (of_Z 45) zero)).
  - reflexivity.
  - reflexivity.
  - discriminate.
Defined.

(** X4.  Submitting a meal for a day other than the selected one leaves
    the calories and the percentages on display as they were. *)
Theorem submit_for_other_day_keeps_summary (st : State) (v : FormValues) (m : Meal) :
  reachable st ->
  safeParse v = inl m ->
  day m <> currentDay st ->
  currentDay (step st (Submit v)) = currentDay st
  /\ currentCalories (step st (Submit v)) = currentCalories st
  /\ macroPercentages (step st (Submit v)) = macroPercentages st.
Proof.
  intros R H N. apply reachable_settled, settled_summary in R as [Rc Rp].
  cbn [step]. unfold handleSubmit. rewrite H. unfold effect.
  rewrite calculateTotals_summarize. cbn [currentDay currentCalories macroPercentages].
  change (currentDay (onSubmit st m)) with (currentDay st).
  rewrite (meals_onSubmit_other st m (currentDay st)) by congruence.
  now rewrite Rc, Rp.
Qed.

Lemma submit_for_other_day_keeps_summary_witness :
  let st := step (effect initialState)
              (Submit (mkFormValues "monday" "Eggs" (of_Z 10) (of_Z 10) (of_Z 10))) in
  let v := mkFormValues "friday" "Rice" (of_Z 4) (of_Z 45) zero in
  currentCalories (step st (Submit v)) = currentCalories st.
Proof.
  intros st v.
  assert (R : reachable st) by (repeat constructor).
  apply (submit_for_other_day_keeps_summary st v
           (mkMeal friday "Rice" (of_Z 4) (of_Z 45) zero) R).
  - reflexivity.
  - discriminate.
Defined.

End Summary.

(* ================================================================== *)
(** ** Bounds on the summary *)

Section Bounds.
Import JS JSFacts.

(** A share of a non-negative total, as a percentage, in the rationals. *)
Lemma Qc_share_bounds (a b : Qc) :
  (0 <= a)%Qc -> (0 <= b)%Qc -> (a + b)%Qc <> 0%Qc ->
  (0 <= a / (a + b) * rat 100)%Qc /\ (a / (a + b) * rat 100 <= rat 100)%Qc.
Proof.
  intros Ha Hb HT.
  assert (Hpos : (0 < this a + this b)%Q).
  { destruct (Qcle_lt_or_eq _ _ (Qc_add_nonneg a b Ha Hb)) as [L|E].
    - unfold Qclt, Qcplus in L. cbn [this Q2Qc] in L.
      now rewrite !Qred_correct in L.
    - now symmetry in E. }
  unfold Qcle in Ha, Hb. cbn [this Q2Qc] in Ha, Hb.
  rewrite Qred_correct in Ha, Hb.
  unfold Qcle, Qcdiv, Qcmult, Qcinv, Qcplus, rat. cbn [this Q2Qc].
  rewrite !Qred_correct.
  change (inject_Z 100) with (100 # 1)%Q.
  assert (L0 : (0 <= this a / (this a + this b))%Q).
  { apply Qle_shift_div_l; [exact Hpos | lra]. }
  assert (L1 : (this a / (this a + this b) <= 1)%Q).
  { apply Qle_shift_div_r; [exact Hpos | lra]. }
  unfold Qdiv in L0, L1. split; lra.
Qed.

Lemma ge_Num (a b : Qc) : (Num a >=? Num b)%js = true <-> (b <= a)%Qc.
Proof.
  unfold ge. split.
  - intros H. apply Qcge_alt. intros C. now rewrite C in H.
  - intros H. apply Qcge_alt in H.
    destruct (Qccompare a b); congruence.
Qed.

Lemma percent_in_range_Num (q : Qc) :
  (0 <= q)%Qc -> (q <= rat 100)%Qc -> percent_in_range (Num q) = true.
Proof.
  intros H0 H1. unfold percent_in_range, hundred, of_Z.
  apply andb_true_intro. split.
  - now apply ge_zero_Num.
  - now apply ge_Num.
Qed.

Lemma percent_in_range_inv (x : number) :
  percent_in_range x = true ->
  exists q, x = Num q /\ (0 <= q)%Qc /\ (q <= rat 100)%Qc.
Proof.
  unfold percent_in_range, hundred, of_Z. intros H.
  apply andb_prop in H as [H0 H1].
  destruct x; try discriminate.
  exists q. split; [reflexivity|]. split.
  - now apply ge_zero_Num.
  - now apply ge_Num.
Qed.

(** One macro's calories [x] against the calories [y] of the other two:
    the guarded percentage is a finite number between 0 and 100, also when
    the total is zero or infinite. *)
Lemma share_in_range (x y : number) :
  (x >=? zero)%js = true -> (y >=? zero)%js = true ->
  percent_in_range (nan_to_zero (x / (x + y) * hundred)) = true.
Proof.
  intros Hx Hy.
  destruct (ge_zero_inv x Hx) as [->|(a & -> & Ha)];
    destruct (ge_zero_inv y Hy) as [->|(b & -> & Hb)]; try reflexivity.
  cbn [add]. unfold div. destruct (sgn (a + b)%Qc) eqn:E.
  - apply sgn_Eq in E. destruct (Qc_add_eq_zero a b Ha Hb E) as [-> _].
    reflexivity.
  - assert (N : (a + b)%Qc <> 0%Qc).
    { intros Z. rewrite Z in E. discriminate. }
    destruct (Qc_share_bounds a b Ha Hb N) as [L0 L1].
    unfold hundred, of_Z. cbn [mul nan_to_zero isNaN].
    now apply percent_in_range_Num.
  - assert (N : (a + b)%Qc <> 0%Qc).
    { intros Z. rewrite Z in E. discriminate. }
    destruct (Qc_share_bounds a b Ha Hb N) as [L0 L1].
    unfold hundred, of_Z. cbn [mul nan_to_zero isNaN].
    now apply percent_in_range_Num.
Qed.

Lemma reduce_sum_ge_zero (f : Meal -> number) (ms : list Meal) :
  Forall (fun m => (f m >=? zero)%js = true) ms ->
  (reduce_sum f ms >=? zero)%js = true.
Proof. rewrite reduce_sum_spec. apply spec_sum_ge_zero. Qed.

(** On records that passed validation, the summary is in bounds. *)
Lemma summarize_bounds (ms : list Meal) :
  Forall valid_meal ms ->
  (fst (summarize ms) >=? zero)%js = true
  /\ percent_in_range (pct_protein (snd (summarize ms))) = true
  /\ percent_in_range (pct_carbs (snd (summarize ms))) = true
  /\ percent_in_range (pct_fat (snd (summarize ms))) = true.
Proof.
  intros V.
  assert (Gp : (reduce_sum protein ms * four >=? zero)%js = true).
  { apply ge_zero_mul_pos; [apply rat_pos_4|]. apply reduce_sum_ge_zero.
    eapply Forall_impl; [|exact V]. unfold valid_meal. tauto. }
  assert (Gc : (reduce_sum carbs ms * four >=? zero)%js = true).
  { apply ge_zero_mul_pos; [apply rat_pos_4|]. apply reduce_sum_ge_zero.
    eapply Forall_impl; [|exact V]. unfold valid_meal. tauto. }
  assert (Gf : (reduce_sum fat ms * nine >=? zero)%js = true).
  { apply ge_zero_mul_pos; [apply rat_pos_9|]. apply reduce_sum_ge_zero.
    eapply Forall_impl; [|exact V]. unfold valid_meal. tauto. }
  unfold summarize. cbn [fst snd pct_protein pct_carbs pct_fat].
  set (P := (reduce_sum protein ms * four)%js) in *.
  set (C := (reduce_sum carbs ms * four)%js) in *.
  set (F := (reduce_sum fat ms * nine)%js) in *.
  split; [|split; [|split]].
  - apply ge_zero_add; [now apply ge_zero_add | exact Gf].
  - rewrite <- add_assoc. apply share_in_range; [exact Gp|].
    now apply ge_zero_add.
  - rewrite (add_comm P C), <- add_assoc. apply share_in_range; [exact Gc|].
    now apply ge_zero_add.
  - rewrite (add_comm (P + C)%js F). apply share_in_range; [exact Gf|].
    now apply ge_zero_add.
Qed.

(** The ledger invariant, list by list. *)
Lemma reachable_valid (st : State) :
  reachable st -> forall d, Forall valid_meal (get (meals st) d).
Proof.
  induction 1 as [|st e _ IH]; intros d.
  - rewrite meals_effect. cbn [initialState meals].
    rewrite get_initialMeals. constructor.
  - rewrite meals_step. apply Forall_app. split; [apply IH|].
    apply Forall_forall. intros m Hm.
    apply In_of_day in Hm as [Hm _]. now apply In_accepted_valid with e.
Qed.

(** X5.  In every reachable state the three percentages on display are
    finite numbers between 0 and 100, never NaN and never an infinity, and
    the calories are not negative. *)
Theorem displayed_percentages_in_range (st : State) :
  reachable st ->
  (currentCalories st >=? zero)%js = true
  /\ percent_in_range (pct_protein (macroPercentages st)) = true
  /\ percent_in_range (pct_carbs (macroPercentages st)) = true
  /\ percent_in_range (pct_fat (macroPercentages st)) = true.
Proof.
  intros R.
  destruct (settled_summary st (reachable_settled st R)) as [-> ->].
  apply summarize_bounds, reachable_valid, R.
Qed.

Lemma displayed_percentages_in_range_witness :
  let v := mkFormValues "monday" "Lunch" (of_Z 50) (of_Z 50) (of_Z 20) in
  let st := step (effect initialState) (Submit v) in
  percent_in_range (pct_fat (macroPercentages st)) = true.
Proof.
  intros v st.
  assert (R : reachable st) by (repeat constructor).
  exact (proj2 (proj2 (proj2 (displayed_percentages_in_range st R)))).
Defined.

Lemma ge_refl_nonneg (x : number) : (x >=? zero)%js = true -> (x >=? x)%js = true.
Proof.
  intros Hx. destruct (ge_zero_inv x Hx) as [->|(a & -> & Ha)]; [reflexivity|].
  apply ge_Num, Qcle_refl.
Qed.

Lemma ge_add_l (x y : number) :
  (x >=? zero)%js = true -> (y >=? zero)%js = true -> (x + y >=? x)%js = true.
Proof.
  intros Hx Hy.
  destruct (ge_zero_inv x Hx) as [->|(a & -> & Ha)];
    destruct (ge_zero_inv y Hy) as [->|(b & -> & Hb)]; try reflexivity.
  cbn [add]. apply ge_Num.
  rewrite <- (Qcplus_0_r a) at 1. apply Qcplus_le_compat; [apply Qcle_refl | exact Hb].
Qed.

Lemma ge_mul_mono (x y : number) (k : Qc) :
  (0 < k)%Qc ->
  (x >=? zero)%js = true -> (y >=? zero)%js = true ->
  (x >=? y)%js = true -> (x * Num k >=? y * Num k)%js = true.
Proof.
  intros Hk Hx Hy.
  destruct (ge_zero_inv x Hx) as [->|(a & -> & Ha)];
    destruct (ge_zero_inv y Hy) as [->|(b & -> & Hb)];
    cbn [mul]; unfold scale_inf; rewrite ?(sgn_pos k Hk);
    try reflexivity; try discriminate.
  intros H. apply ge_Num in H. apply ge_Num.
  apply Qcmult_le_compat_r; [exact H | now apply Qclt_le_weak].
Qed.

Lemma ge_add_mono (x x' y y' : number) :
  (x' >=? zero)%js = true -> (y' >=? zero)%js = true ->
  (x >=? x')%js = true -> (y >=? y')%js = true ->
  (x + y >=? x' + y')%js = true.
Proof.
  intros Hx' Hy'.
  destruct (ge_zero_inv x' Hx') as [->|(a' & -> & Ha')];
    destruct (ge_zero_inv y' Hy') as [->|(b' & -> & Hb')];
    destruct x as [a| | |], y as [b| | |];
    try reflexivity; try discriminate.
  intros Ha Hb. apply ge_Num in Ha, Hb. cbn [add]. apply ge_Num.
  now apply Qcplus_le_compat.
Qed.

Lemma spec_sum_app (f : Meal -> number) (l1 l2 : list Meal) :
  spec_sum f (l1 ++ l2) = (spec_sum f l1 + spec_sum f l2)%js.
Proof.
  induction l1 as [|m l1 IH]; cbn [spec_sum app].
  - now rewrite add_zero_l.
  - now rewrite IH, add_assoc.
Qed.

Lemma valid_meal_macros (ms : list Meal) :
  Forall valid_meal ms ->
  Forall (fun m => (protein m >=? zero)%js = true) ms
  /\ Forall (fun m => (carbs m >=? zero)%js = true) ms
  /\ Forall (fun m => (fat m >=? zero)%js = true) ms.
Proof.
  intros V. repeat split;
    (eapply Forall_impl; [|exact V]; unfold valid_meal; tauto).
Qed.

(** Appending validated records never lowers the calories. *)
Lemma calories_mono_app (ms l : list Meal) :
  Forall valid_meal ms -> Forall valid_meal l ->
  (fst (summarize (ms ++ l)) >=? fst (summarize ms))%js = true.
Proof.
  intros V W.
  destruct (valid_meal_macros ms V) as (Vp & Vc & Vf).
  destruct (valid_meal_macros l W) as (Wp & Wc & Wf).
  unfold summarize. cbn [fst]. rewrite !reduce_sum_spec, !spec_sum_app.
  pose proof (spec_sum_ge_zero _ _ Vp). pose proof (spec_sum_ge_zero _ _ Vc).
  pose proof (spec_sum_ge_zero _ _ Vf). pose proof (spec_sum_ge_zero _ _ Wp).
  pose proof (spec_sum_ge_zero _ _ Wc). pose proof (spec_sum_ge_zero _ _ Wf).
  unfold four, nine, of_Z.
  repeat first
    [ apply ge_add_mono
    | apply ge_mul_mono
    | apply ge_zero_add
    | apply ge_zero_mul_pos
    | apply ge_add_l
    | apply rat_pos_4
    | apply rat_pos_9
    | assumption ].
Qed.

(** X6.  In a reachable state no submission lowers the calories on
    display: a rejected one and one for another day leave them as they are,
    and an accepted one for the selected day adds to them. *)
Theorem submit_never_lowers_calories (st : State) (v : FormValues) :
  reachable st ->
  (currentCalories (step st (Submit v)) >=? currentCalories st)%js = true.
Proof.
  intros R.
  pose proof (reachable_valid st R (currentDay st)) as V.
  destruct (settled_summary st (reachable_settled st R)) as [Ec _].
  cbn [step]. unfold effect. rewrite calculateTotals_summarize.
  cbn [currentCalories]. rewrite currentDay_handleSubmit.
  rewrite Ec. unfold handleSubmit.
  destruct (safeParse v) as [m|errs] eqn:E.
  - rewrite meals_onSubmit_of_day. apply calories_mono_app; [exact V|].
    apply Forall_forall. intros m' Hm'. apply In_of_day in Hm' as [[<-|[]] _].
    now apply safeParse_valid with v.
  - apply ge_refl_nonneg. now apply summarize_bounds.
Qed.

Lemma submit_never_lowers_calories_witness :
  let st := step (effect initialState)
              (Submit (mkFormValues "monday" "Eggs" (of_Z 10) (of_Z 10) (of_Z 10))) in
  let v := mkFormValues "monday" "Rice" (of_Z 4) (of_Z 45) zero in
  (currentCalories (step st (Submit v)) >=? currentCalories st)%js = true.
Proof.
  intros st v. apply submit_never_lowers_calories. repeat constructor.
Defined.

End Bounds.

(* ================================================================== *)
(** ** More on the validator *)

Section ValidatorMore.
Import JS JSFacts.

Lemma valid_meal_values (m : Meal) : valid_meal m <-> valid_values (to_values m).
Proof.
  unfold valid_meal, valid_values, to_values.
  cbn [fv_day fv_name fv_protein fv_carbs fv_fat]. split; [|tauto].
  intros H. split; [|exact H].
  apply in_map. destruct (day m); simpl; tauto.
Qed.

(** X7.  [safeParse] and [to_values] are inverse to each other on what
    passes validation: an accepted meal is, field by field, the values that
    were submitted, and submitting the fields of a meal that satisfies the
    rules gives that meal back. *)
Theorem safeParse_round_trip :
  (forall v m, safeParse v = inl m -> to_values m = v)
  /\ (forall m, valid_meal m -> safeParse (to_values m) = inl m).
Proof.
  split.
  - intros v m H. apply safeParse_inl in H as (_ & Hd & Hn & Hp & Hc & Hf).
    apply parse_day_Some in Hd. unfold to_values.
    rewrite <- Hd, Hn, Hp, Hc, Hf. now destruct v.
  - intros m V. apply safeParse_inl. split; [now apply valid_meal_values|].
    unfold to_values. cbn [fv_day fv_name fv_protein fv_carbs fv_fat].
    rewrite parse_day_name. tauto.
Qed.

Lemma safeParse_round_trip_witness :
  let v := mkFormValues "sunday" "Roast" (of_Z 40) (of_Z 5) (of_Z 30) in
  let m := mkMeal sunday "Roast" (of_Z 40) (of_Z 5) (of_Z 30) in
  to_values m = v /\ safeParse (to_values m) = inl m.
Proof.
  intros v m. destruct safeParse_round_trip as [H1 H2]. split.
  - apply (H1 v m). reflexivity.
  - apply H2. unfold valid_meal. cbn. repeat split; auto.
Defined.

(** X8.  Form values are rejected with the issue on [day] exactly when the
    day is not one of the seven lower-case names; the capitalised labels
    shown on the page are therefore not accepted as values. *)
Theorem invalid_day_iff :
  (forall v,
      (exists errs, safeParse v = inr errs /\ In InvalidDay errs)
      <-> ~ In (fv_day v) (map day_name DAYS))
  /\ (forall v d, fv_day v = label (day_name d) ->
                  exists errs, safeParse v = inr errs /\ In InvalidDay errs).
Proof.
  assert (A : forall v, ~ In (fv_day v) (map day_name DAYS) ->
                        In InvalidDay (issues v)).
  { intros v H. apply In_issues. left. unfold check_day.
    destruct (parse_day (fv_day v)) as [d|] eqn:E; [|now left].
    exfalso. apply H. apply parse_day_In. now exists d. }
  split.
  - intros v. split.
    + intros (errs & H & Hin) Hd. apply safeParse_inr in H as [-> _].
      apply In_issues in Hin as [H|[H|[H|[H|H]]]].
      * apply check_day_nil in Hd. rewrite Hd in H. destruct H.
      * apply In_check_name in H as [H _]. discriminate.
      * apply In_check_macro in H. discriminate.
      * apply In_check_macro in H. discriminate.
      * apply In_check_macro in H. discriminate.
    + intros H. exists (issues v). split; [|now apply A].
      now apply rejected_with with InvalidDay, A.
  - intros v d Hd. exists (issues v).
    assert (N : ~ In (fv_day v) (map day_name DAYS)).
    { rewrite Hd. destruct d; cbn; intuition discriminate. }
    split; [|now apply A]. now apply rejected_with with InvalidDay, A.
Qed.

Lemma invalid_day_iff_witness :
  exists errs,
    safeParse (mkFormValues "Monday" "Eggs" zero zero zero) = inr errs
    /\ In InvalidDay errs.
Proof.
  destruct invalid_day_iff as [_ H].
  apply (H (mkFormValues "Monday" "Eggs" zero zero zero) monday). reflexivity.
Defined.

(** X9.  A failed parse reports at most one issue per field: the paths of
    the issues are pairwise different, so there are at most five, and each
    issue comes from the check of the field at its path and from no other
    field. *)
Theorem one_issue_per_field (v : FormValues) :
  NoDup (map path (issues v))
  /\ List.length (issues v) <= 5
  /\ (forall i, In i (issues v) ->
        (path i = "day" /\ In i (check_day (fv_day v)))
        \/ (path i = "name" /\ In i (check_name (fv_name v)))
        \/ (path i = "protein" /\ In i (check_macro "protein" (fv_protein v)))
        \/ (path i = "carbs" /\ In i (check_macro "carbs" (fv_carbs v)))
        \/ (path i = "fat" /\ In i (check_macro "fat" (fv_fat v)))).
Proof.
  split; [|split].
  - unfold issues, check_day, check_name, check_macro.
    destruct (parse_day (fv_day v)), (Nat.ltb (String.length (fv_name v)) 2),
      (isNaN (fv_protein v)), (fv_protein v <? zero)%js,
      (isNaN (fv_carbs v)), (fv_carbs v <? zero)%js,
      (isNaN (fv_fat v)), (fv_fat v <? zero)%js;
      cbn; repeat constructor; cbn; intuition discriminate.
  - unfold issues, check_day, check_name, check_macro.
    destruct (parse_day (fv_day v)), (Nat.ltb (String.length (fv_name v)) 2),
      (isNaN (fv_protein v)), (fv_protein v <? zero)%js,
      (isNaN (fv_carbs v)), (fv_carbs v <? zero)%js,
      (isNaN (fv_fat v)), (fv_fat v <? zero)%js;
      cbn; lia.
  - intros i Hin. apply In_issues in Hin as [H|[H|[H|[H|H]]]].
    + left. split; [|exact H]. now apply In_check_day in H as ->.
    + right. left. split; [|exact H]. now apply In_check_name in H as [-> _].
    + right. right. left. split; [|exact H]. now apply In_check_macro in H.
    + right. right. right. left. split; [|exact H]. now apply In_check_macro in H.
    + right. right. right. right. split; [|exact H]. now apply In_check_macro in H.
Qed.

Lemma one_issue_per_field_witness :
  let v := mkFormValues "someday" "X" (of_Z (-1)) zero NaN in
  map path (issues v) = ["day"; "name"; "protein"; "fat"]
  /\ forall i, In i (issues v) -> path i <> "carbs".
Proof.
  intros v. split; [reflexivity|].
  intros i Hin E.
  destruct (one_issue_per_field v) as (_ & _ & H).
  destruct (H i Hin) as [[P _]|[[P _]|[[P _]|[[_ []]|[P _]]]]];
    rewrite E in P; discriminate.
Defined.

End ValidatorMore.

(* ================================================================== *)
(** ** More on the arrays as shared objects *)

Section SharedArraysMore.
Import JS Refs.

Lemma wf_calculateTotals_store (s : Store) (d : Day) :
  wf s -> wf (calculateTotals_store s d).
Proof.
  intros W d'. unfold calculateTotals_store.
  destruct (summarize (deref (heap s) (mealsFor s d))). apply W.
Qed.

Lemma heap_calculateTotals_store (s : Store) (d : Day) :
  heap (calculateTotals_store s d) = heap s
  /\ refs (calculateTotals_store s d) = refs s.
Proof.
  unfold calculateTotals_store.
  now destruct (summarize (deref (heap s) (mealsFor s d))).
Qed.

Lemma wf_handleSubmit_store (s : Store) (v : FormValues) :
  wf s -> wf (handleSubmit_store s v).
Proof.
  intros W. unfold handleSubmit_store.
  destruct (safeParse v); [now apply wf_onSubmit_store | exact W].
Qed.

Lemma wf_step_store (s : Store) (e : Event) : wf s -> wf (step_store s e).
Proof.
  intros W. destruct e as [v|d]; cbn [step_store]; unfold effect_store;
    apply wf_calculateTotals_store.
  - now apply wf_handleSubmit_store.
  - exact W.
Qed.

Lemma value_of_step_store (s : Store) (e : Event) :
  wf s -> value_of (step_store s e) = step (value_of s) e.
Proof.
  intros W. destruct e as [v|d]; cbn [step_store step];
    unfold effect_store, effect; rewrite value_of_calculateTotals_store.
  - unfold handleSubmit_store, handleSubmit.
    destruct (safeParse v) as [m|errs]; [|reflexivity].
    now rewrite value_of_onSubmit_store.
  - reflexivity.
Qed.

(** X10.  The program on shared arrays and the program on values agree:
    from a store without dangling references, every run of events keeps
    the store so and ends in the store whose value is the state the run on
    values ends in. *)
Theorem run_store_refines_run (s : Store) (es : list Event) :
  wf s ->
  wf (run_store s es) /\ value_of (run_store s es) = run (value_of s) es.
Proof.
  revert s. induction es as [|e es IH]; intros s W.
  - now split.
  - unfold run_store, run. cbn [fold_left].
    destruct (IH (step_store s e) (wf_step_store s e W)) as [W' E].
    split; [exact W'|].
    unfold run_store, run in E. rewrite E. now rewrite value_of_step_store.
Qed.

Lemma run_store_refines_run_witness :
  let es := [Submit (mkFormValues "monday" "Eggs" (of_Z 10) (of_Z 10) (of_Z 10));
             SelectDay friday] in
  value_of (run_store initialStore es) = run initialState es.
Proof.
  intros es.
  exact (proj2 (run_store_refines_run initialStore es wf_initialStore)).
Defined.

Lemma heap_step_store (s : Store) (e : Event) :
  exists l, heap (step_store s e) = heap s ++ l.
Proof.
  destruct e as [v|d]; cbn [step_store]; unfold effect_store;
    rewrite (proj1 (heap_calculateTotals_store _ _)).
  - unfold handleSubmit_store. destruct (safeParse v) as [m|errs].
    + unfold onSubmit_store. cbn [heap]. eauto.
    + exists []. now rewrite app_nil_r.
  - exists []. cbn [setCurrentDay_store heap]. now rewrite app_nil_r.
Qed.

Lemma heap_run_store (es : list Event) (s : Store) :
  exists l, heap (run_store s es) = heap s ++ l.
Proof.
  revert s. induction es as [|e es IH]; intros s.
  - exists []. cbn. now rewrite app_nil_r.
  - unfold run_store. cbn [fold_left].
    destruct (IH (step_store s e)) as (l2 & E2).
    destruct (heap_step_store s e) as (l1 & E1).
    exists (l1 ++ l2). unfold run_store in E2. rewrite E2, E1.
    now rewrite app_assoc.
Qed.

(** X11.  No event changes an array that exists: a run only adds arrays
    to the heap, so every array keeps its contents and a state object held
    from before the run still reads the lists it read then. *)
Theorem run_store_keeps_old_arrays (s : Store) (es : list Event) :
  wf s ->
  (forall a, a < List.length (heap s) ->
             deref (heap (run_store s es)) a = deref (heap s) a)
  /\ read_in (heap (run_store s es)) (refs s) = read_in (heap s) (refs s).
Proof.
  intros W. destruct (heap_run_store es s) as (l & E).
  assert (A : forall a, a < List.length (heap s) ->
                        deref (heap (run_store s es)) a = deref (heap s) a).
  { intros a Ha. rewrite E. unfold deref. now apply app_nth1. }
  split; [exact A|].
  unfold read_in. apply weekly_ext. intros d.
  rewrite !get_weekly_map. apply A, W.
Qed.

Lemma run_store_keeps_old_arrays_witness :
  let s := onSubmit_store initialStore
             (mkMeal monday "Eggs" (of_Z 10) (of_Z 10) (of_Z 10)) in
  let es := [Submit (mkFormValues "monday" "Rice" (of_Z 4) (of_Z 45) zero)] in
  read_in (heap (run_store s es)) (refs s) = read_in (heap s) (refs s).
Proof.
  intros s es.
  apply (run_store_keeps_old_arrays s es).
  apply wf_onSubmit_store, wf_initialStore.
Defined.

Lemma separate_initialStore : separate initialStore.
Proof. intros d d'. destruct d, d'; cbn; congruence. Qed.

Lemma separate_onSubmit_store (s : Store) (r : Meal) :
  wf s -> separate s -> separate (onSubmit_store s r).
Proof.
  intros W S d d'. unfold onSubmit_store. cbn [refs].
  destruct (Day_eq_dec d (day r)) as [->|N];
    destruct (Day_eq_dec d' (day r)) as [->|N'].
  - reflexivity.
  - rewrite get_set_same, get_set_other by exact N'.
    intros E. pose proof (W d'). lia.
  - rewrite get_set_same, get_set_other by exact N.
    intros E. pose proof (W d). lia.
  - rewrite !get_set_other by assumption. apply S.
Qed.

Lemma separate_step_store (s : Store) (e : Event) :
  wf s -> separate s -> separate (step_store s e).
Proof.
  intros W S d d'. destruct e as [v|d0]; cbn [step_store]; unfold effect_store;
    rewrite (proj2 (heap_calculateTotals_store _ _)).
  - unfold handleSubmit_store. destruct (safeParse v) as [m|errs].
    + now apply separate_onSubmit_store.
    + apply S.
  - apply S.
Qed.

Lemma separate_run_store (es : list Event) (s : Store) :
  wf s -> separate s -> separate (run_store s es).
Proof.
  revert s. induction es as [|e es IH]; intros s W S.
  - exact S.
  - unfold run_store. cbn [fold_left]. apply IH.
    + now apply wf_step_store.
    + now apply separate_step_store.
Qed.

(** X12.  In every store the component can reach, the seven days hold
    seven different arrays; a [push] through the array of one day would
    therefore show under that day only. *)
Theorem days_never_share_an_array (es : list Event) :
  let s := run_store (effect_store initialStore) es in
  separate s
  /\ (forall d d' x,
         d' <> d ->
         get (meals (value_of (push_through s (mealsFor s d) x))) d'
         = get (meals (value_of s)) d').
Proof.
  intros s.
  assert (W0 : wf (effect_store initialStore)).
  { apply wf_calculateTotals_store, wf_initialStore. }
  assert (S0 : separate (effect_store initialStore)).
  { intros d d'. unfold effect_store.
    rewrite (proj2 (heap_calculateTotals_store _ _)). apply separate_initialStore. }
  assert (S : separate s) by now apply separate_run_store.
  split; [exact S|].
  intros d d' x N. unfold value_of, push_through, mealsFor.
  cbn [meals heap refs]. rewrite !get_weekly_map.
  apply deref_push_other. intros E. apply S in E. contradiction.
Qed.

Lemma days_never_share_an_array_witness :
  let s := run_store (effect_store initialStore)
             [Submit (mkFormValues "monday" "Eggs" (of_Z 10) (of_Z 10) (of_Z 10))] in
  let x := mkMeal friday "Cake" (of_Z 4) (of_Z 40) (of_Z 12) in
  get (meals (value_of (push_through s (mealsFor s friday) x))) monday
  = get (meals (value_of s)) monday.
Proof.
  intros s x.
  destruct (days_never_share_an_array
              [Submit (mkFormValues "monday" "Eggs" (of_Z 10) (of_Z 10) (of_Z 10))])
    as [_ H].
  apply H. discriminate.
Defined.

End SharedArraysMore.

(* ================================================================== *)
(** ** The form *)

Section FormPage.
Import JS JSFacts.

Lemma empty_name_rejected (v : FormValues) :
  fv_name v = "" -> safeParse v = inr (issues v).
Proof.
  intros H. apply rejected_with with NameTooShort.
  apply In_issues. right. left. apply In_check_name.
  split; [reflexivity | rewrite H; cbn; lia].
Qed.

Lemma defaultValues_rejected : safeParse defaultValues = inr [NameTooShort].
Proof. reflexivity. Qed.

(** A click that settles before anything else happens is the atomic click
    of [ui_step]. *)
Lemma click_then_settle (u : UI) :
  async_run (idle u) [Dispatch ClickAddMeal; Settle]
  = idle (ui_step u ClickAddMeal).
Proof.
  unfold async_run, idle. cbn [fold_left async_step a_ui a_pending app ui_step].
  now destruct (safeParse (ui_form u)).
Qed.

Lemma async_run_app (a : UIAsync) (es1 es2 : list AsyncEvent) :
  async_run a (es1 ++ es2) = async_run (async_run a es1) es2.
Proof. unfold async_run. apply fold_left_app. Qed.

(** X13.  A click on "Add Meal" validates the values the form holds at
    that moment and acts when that has settled: an accepted one then stores
    the meal and puts the default values back in the form, a rejected one
    leaves the component state and the typed values as they are.  A second
    click after the first has settled adds nothing more; two clicks that
    both come before the first has settled store the meal twice. *)
Theorem add_meal_click :
  (forall u m, safeParse (ui_form u) = inl m ->
               async_run (idle u) [Dispatch ClickAddMeal; Settle]
               = idle (mkUI (step (ui_state u) (Submit (ui_form u))) defaultValues))
  /\ (forall u errs, safeParse (ui_form u) = inr errs ->
                     async_run (idle u) [Dispatch ClickAddMeal; Settle] = idle u)
  /\ (forall u,
         async_run (idle u)
           [Dispatch ClickAddMeal; Settle; Dispatch ClickAddMeal; Settle]
         = async_run (idle u) [Dispatch ClickAddMeal; Settle])
  /\ (forall u m, safeParse (ui_form u) = inl m ->
         let a := async_run (idle u)
                    [Dispatch ClickAddMeal; Dispatch ClickAddMeal; Settle; Settle] in
         a_pending a = []
         /\ ui_form (a_ui a) = defaultValues
         /\ get (meals (ui_state (a_ui a))) (day m)
            = get (meals (ui_state u)) (day m) ++ [m; m]).
Proof.
  refine (conj _ (conj _ (conj _ _))).
  - intros u m H. rewrite click_then_settle. cbn [ui_step step].
    unfold handleSubmit. now rewrite H.
  - intros u errs H. rewrite click_then_settle. cbn [ui_step]. now rewrite H.
  - intros u.
    change [Dispatch ClickAddMeal; Settle; Dispatch ClickAddMeal; Settle]
      with ([Dispatch ClickAddMeal; Settle] ++ [Dispatch ClickAddMeal; Settle]).
    rewrite async_run_app, !click_then_settle. f_equal.
    cbn [ui_step]. destruct (safeParse (ui_form u)) as [m|errs] eqn:E.
    + cbn [ui_form]. now rewrite defaultValues_rejected.
    + now rewrite E.
  - intros u m H a. subst a. unfold async_run, idle.
    cbn [fold_left async_step a_ui a_pending app]. rewrite H.
    cbn [a_ui a_pending ui_state ui_form].
    repeat split.
    rewrite meals_effect, meals_onSubmit_same, meals_effect, meals_onSubmit_same.
    now rewrite <- app_assoc.
Qed.

Lemma add_meal_click_witness :
  let u := ui_run initialUI [ChangeName "Eggs"; ChangeProtein (of_Z 12)] in
  let m := mkMeal monday "Eggs" (of_Z 12) zero zero in
  get (meals (ui_state (a_ui (async_run (idle u)
         [Dispatch ClickAddMeal; Settle; Dispatch ClickAddMeal; Settle])))) monday
  = [m]
  /\ get (meals (ui_state (a_ui (async_run (idle u)
         [Dispatch ClickAddMeal; Dispatch ClickAddMeal; Settle; Settle])))) monday
     = [m; m].
Proof.
  intros u m. destruct add_meal_click as (_ & _ & H3 & H4). split.
  - rewrite H3. reflexivity.
  - apply (H4 u m). reflexivity.
Defined.

Lemma ui_run_snoc (u : UI) (es : list UIEvent) (e : UIEvent) :
  ui_run u (es ++ [e]) = ui_step (ui_run u es) e.
Proof. unfold ui_run. now rewrite fold_left_app. Qed.

(** X14.  Without typing a name no meal can be added: after any events on
    the page among which the name field is never changed, the ledger is
    still empty. *)
Theorem no_meal_without_a_name (es : list UIEvent) :
  forallb (fun e => negb (types_name e)) es = true ->
  meals (ui_state (ui_run initialUI es)) = initialMeals.
Proof.
  intros H.
  enough (I : fv_name (ui_form (ui_run initialUI es)) = ""
              /\ meals (ui_state (ui_run initialUI es)) = initialMeals)
    by apply I.
  induction es as [|e es IH] using rev_ind.
  - split; reflexivity.
  - rewrite forallb_app in H. apply andb_prop in H as [Hes He].
    cbn [forallb] in He. rewrite andb_true_r in He.
    destruct (IH Hes) as [In Im]. rewrite ui_run_snoc.
    destruct e; cbn [types_name negb] in He; try discriminate;
      cbn [ui_step ui_form ui_state fv_name];
      try (split; [exact In | rewrite ?meals_effect; exact Im]).
    rewrite (empty_name_rejected _ In). now split.
Qed.

Lemma no_meal_without_a_name_witness :
  meals (ui_state (ui_run initialUI
                     [ChangeDay "friday"; ChangeProtein (of_Z 30); ClickAddMeal;
                      ClickTab friday; ClickAddMeal]))
  = initialMeals.
Proof. apply no_meal_without_a_name. reflexivity. Defined.

(** X15.  The page with its form reaches only states that a run of
    submissions and day selections reaches, so what holds in every
    reachable state holds on the page whatever is typed and clicked. *)
Theorem page_states_are_reachable (es : list UIEvent) :
  reachable (ui_state (ui_run initialUI es)).
Proof.
  induction es as [|e es IH] using rev_ind.
  - constructor.
  - rewrite ui_run_snoc.
    destruct e; cbn [ui_step ui_state]; try exact IH.
    + destruct (safeParse (ui_form (ui_run initialUI es))) as [m|errs] eqn:E;
        [|exact IH].
      cbn [ui_state].
      replace (effect (onSubmit (ui_state (ui_run initialUI es)) m))
        with (step (ui_state (ui_run initialUI es))
                (Submit (ui_form (ui_run initialUI es)))).
      * now constructor.
      * cbn [step]. unfold handleSubmit. now rewrite E.
    + apply (reach_step _ (SelectDay d)), IH.
Qed.

End FormPage.

(* ================================================================== *)
(** ** The labels *)

Section Labels.

Lemma toUpperCase_unit_lower (c : Ascii.ascii) :
  97 <= Ascii.nat_of_ascii c <= 122 ->
  Ascii.nat_of_ascii (toUpperCase_unit c) = Ascii.nat_of_ascii c - 32.
Proof.
  intros H. unfold toUpperCase_unit.
  destruct (Nat.leb_spec 97 (Ascii.nat_of_ascii c)); [|lia].
  destruct (Nat.leb_spec (Ascii.nat_of_ascii c) 122); [|lia].
  cbn [andb]. apply Ascii.nat_ascii_embedding. lia.
Qed.

Lemma label_String (c : Ascii.ascii) (s : string) :
  label (String c s) = String (toUpperCase_unit c) s.
Proof. reflexivity. Qed.

(** X16.  The label of a day is its name with the first letter in upper
    case and the rest untouched: it has the same length, it differs from the
    name, and different names starting with a lower-case letter get
    different labels, so the seven tabs carry seven different labels.  The
    empty string is left empty. *)
Theorem label_capitalises_first_letter :
  (forall s, starts_lower s ->
             String.length (label s) = String.length s
             /\ slice1 (label s) = slice1 s
             /\ label s <> s)
  /\ (forall s t, starts_lower s -> starts_lower t ->
                  label s = label t -> s = t)
  /\ (forall d, starts_lower (day_name d))
  /\ NoDup (map (fun d => label (day_name d)) DAYS)
  /\ label "" = "".
Proof.
  refine (conj _ (conj _ (conj _ (conj _ _)))).
  - intros [|c s] H; [destruct H|]. cbn [starts_lower] in H.
    rewrite label_String. cbn [String.length slice1].
    repeat split. intros E. injection E as E.
    apply (f_equal Ascii.nat_of_ascii) in E.
    rewrite toUpperCase_unit_lower in E by exact H. lia.
  - intros [|c s] [|c' t] Hs Ht; try destruct Hs; try destruct Ht.
    rewrite !label_String. intros E. injection E as Ec Es.
    apply (f_equal Ascii.nat_of_ascii) in Ec.
    rewrite !toUpperCase_unit_lower in Ec by (cbn [starts_lower] in *; lia).
    cbn [starts_lower] in *.
    assert (N : Ascii.nat_of_ascii c = Ascii.nat_of_ascii c') by lia.
    apply (f_equal Ascii.ascii_of_nat) in N.
    rewrite !Ascii.ascii_nat_embedding in N. now subst.
  - intros d. destruct d; cbn; lia.
  - cbn. repeat constructor; cbn; intuition discriminate.
  - reflexivity.
Qed.

Lemma label_capitalises_first_letter_witness :
  label "monday" = "Monday" /\ label "monday" <> "monday".
Proof.
  destruct label_capitalises_first_letter as (H & _ & Hd & _).
  split; [reflexivity|]. apply (H "monday"). apply (Hd monday).
Defined.

End Labels.

(* ================================================================== *)
(** ** The percentages and the range of doubles *)

Section DoubleRange.
Import JS JSFacts.

Lemma threshold_pos : (0 < Overflow.threshold)%Qc.
Proof. unfold Qclt. vm_compute. reflexivity. Qed.



Lemma fit_in_range (q : Qc) :
  (0 <= q)%Qc -> (q < Overflow.threshold)%Qc -> Overflow.fit (Num q) = Num q.
Proof.
  intros H0 H1. unfold Overflow.fit.
  rewrite (proj1 (Qclt_alt _ _) H1).
  assert (L : (- Overflow.threshold < q)%Qc).
  { apply Qclt_le_trans with 0%Qc; [|exact H0].
    unfold Qclt. vm_compute. reflexivity. }
  now rewrite (proj1 (Qclt_alt _ _) L).
Qed.

Lemma fit_over (q : Qc) :
  (Overflow.threshold <= q)%Qc -> Overflow.fit (Num q) = PosInf.
Proof.
  intros H. unfold Overflow.fit. apply Qcge_alt in H.
  destruct (Qccompare q Overflow.threshold); congruence.
Qed.

Lemma fit_nonneg (q : Qc) :
  (0 <= q)%Qc ->
  Overflow.fit (Num q) = PosInf
  \/ (Overflow.fit (Num q) = Num q /\ (q < Overflow.threshold)%Qc).
Proof.
  intros H0. destruct (Qclt_le_dec q Overflow.threshold) as [L|G].
  - right. split; [now apply fit_in_range | exact L].
  - left. now apply fit_over.
Qed.



Lemma lt_le_trans_threshold (q r : Qc) :
  (q <= r)%Qc -> (r < Overflow.threshold)%Qc -> (q < Overflow.threshold)%Qc.
Proof. apply Qcle_lt_trans. Qed.


(** One percentage, when the calorie total is infinite. *)
Lemma percentage_over_infinity (x : number) :
  x = PosInf \/ (exists q, x = Num q) ->
  nan_to_zero (Overflow.mul (Overflow.div x PosInf) hundred) = zero.
Proof.
  intros [->|(q & ->)]; reflexivity.
Qed.

Lemma overflow_add_PosInf_l (y : number) :
  y = PosInf \/ (exists q, y = Num q) -> Overflow.add PosInf y = PosInf.
Proof. intros [->|(q & ->)]; reflexivity. Qed.

Lemma overflow_add_PosInf_r (x : number) :
  x = PosInf \/ (exists q, x = Num q) -> Overflow.add x PosInf = PosInf.
Proof. intros [->|(q & ->)]; reflexivity. Qed.


Lemma overflow_mul_nonneg (p k : Qc) :
  (0 <= p)%Qc -> (0 < k)%Qc ->
  Overflow.mul (Num p) (Num k) = PosInf
  \/ (Overflow.mul (Num p) (Num k) = Num (p * k)%Qc
      /\ (p * k < Overflow.threshold)%Qc).
Proof.
  intros Hp Hk. unfold Overflow.mul. cbn [mul]. apply fit_nonneg.
  apply Qc_mul_nonneg; [exact Hp | now apply Qclt_le_weak].
Qed.



Lemma reduce_sum_double_acc (f : Meal -> number) (ms : list Meal) (acc : number) :
  Forall (fun m => (f m >=? zero)%js = true) ms ->
  acc = PosInf \/ (exists q, acc = Num q /\ (0 <= q)%Qc) ->
  let r := fold_left (fun sum meal => Overflow.add sum (f meal)) ms acc in
  r = PosInf \/ (exists q, r = Num q /\ (0 <= q)%Qc).
Proof.
  intros V. revert acc. induction V as [|m ms Hm _ IH]; intros acc Hacc.
  - exact Hacc.
  - cbn [fold_left]. apply IH.
    destruct Hacc as [->|(a & -> & Ha)];
      destruct (ge_zero_inv _ Hm) as [->|(b & -> & Hb)];
      try (left; reflexivity).
    unfold Overflow.add. cbn [add].
    destruct (fit_nonneg (a + b)%Qc (Qc_add_nonneg a b Ha Hb)) as [->|[-> _]].
    + now left.
    + right. exists (a + b)%Qc. split; [reflexivity | now apply Qc_add_nonneg].
Qed.

(** Whenever the calories of validated records are Infinity, because a
    stored macro is, or a sum or a product left the range, the three
    percentages are 0. *)
Lemma infinite_calories_zero_percentages (ms : list Meal) :
  Forall valid_meal ms ->
  fst (summarize_double ms) = PosInf ->
  snd (summarize_double ms) = mkPercentages zero zero zero.
Proof.
  intros V. destruct (valid_meal_macros ms V) as (Vp & Vc & Vf).
  assert (Z : zero = PosInf \/ (exists q, zero = Num q /\ (0 <= q)%Qc)).
  { right. exists 0%Qc. split; [reflexivity | apply Qcle_refl]. }
  pose proof (reduce_sum_double_acc protein ms zero Vp Z) as Tp.
  pose proof (reduce_sum_double_acc carbs ms zero Vc Z) as Tc.
  pose proof (reduce_sum_double_acc fat ms zero Vf Z) as Tf.
  cbv zeta in Tp, Tc, Tf.
  unfold summarize_double. fold (reduce_sum_double protein ms) in *.
  fold (reduce_sum_double carbs ms) in *. fold (reduce_sum_double fat ms) in *.
  cbn [fst snd]. intros Cal. rewrite Cal.
  rewrite !percentage_over_infinity; [reflexivity | | | ].
  - destruct Tf as [->|(q & -> & Hq)]; [left; reflexivity|].
    unfold nine, of_Z.
    destruct (overflow_mul_nonneg q (rat 9) Hq rat_pos_9) as [->|[-> _]]; eauto.
  - destruct Tc as [->|(q & -> & Hq)]; [left; reflexivity|].
    unfold four, of_Z.
    destruct (overflow_mul_nonneg q (rat 4) Hq rat_pos_4) as [->|[-> _]]; eauto.
  - destruct Tp as [->|(q & -> & Hq)]; [left; reflexivity|].
    unfold four, of_Z.
    destruct (overflow_mul_nonneg q (rat 4) Hq rat_pos_4) as [->|[-> _]]; eauto.
Qed.




End DoubleRange.
